(** * DNC training driver for the DREAM task: [tasks/DREAM/train.py]

    A shallow embedding of the sample encoder ([onehot], [prepare_sample])
    and of the control flow of [main] (option handling, checkpoint resume,
    the training loop with its metrics window, periodic checkpoints and the
    [KeyboardInterrupt] handler), followed by the properties established
    about them.

    Conventions of the embedding
    - Python [int] is [Z]; Python [str] is [string], a character being a code
      point below 256.
    - A computation that may raise returns an [outcome]; [sys.exit] is the
      [Exit] outcome.
    - The float values that the encoder stores (0.0 and 1.0) are the
      integers 0 and 1; token ids stored in [float32] arrays go through
      [Np.float32]. Losses, wall-clock readings and what the code computes
      from them are kept as unevaluated expressions ([Np.pyfloat]).
    - TensorFlow, the DNC model, the file system, the random generator and
      the clock are not part of this file of the repository: they appear as
      the fields of a [world] that the run consults. *)

From Stdlib Require Import ZArith List String Ascii Bool Lia QArith.
From Stdlib Require Import DecimalString DecimalZ DecimalPos DecimalFacts.
From Stdlib Require Import Sorted.
Import ListNotations.
Open Scope string_scope.
Open Scope Z_scope.

(* ================================================================== *)
(** * Part I. Definitions                                              *)
(* ================================================================== *)

(** ** Python values and primitives *)

Module Py.

(** The exceptions that the modelled code can raise. *)
Inductive exn : Type :=
| TypeError
| ValueError
| IndexError
| KeyError
| OverflowError
| FileNotFoundError
| IsADirectoryError
| JSONDecodeError
| OtherError (name : string)
| KeyboardInterrupt.

(** Result of running a piece of Python code. *)
Inductive outcome (A : Type) : Type :=
| Ok (a : A)
| Raise (e : exn)
| Exit (status : Z).

Arguments Ok {A} a.
Arguments Raise {A} e.
Arguments Exit {A} status.

Definition bind {A B : Type} (c : outcome A) (k : A -> outcome B) : outcome B :=
  match c with
  | Ok a => k a
  | Raise e => Raise e
  | Exit s => Exit s
  end.

(** A list comprehension [[f(x) for x in l]] whose body may raise: elements
    are evaluated left to right and the first exception escapes. *)
Fixpoint comprehension {A B : Type} (f : A -> outcome B) (l : list A)
  : outcome (list B) :=
  match l with
  | [] => Ok []
  | x :: l' =>
      bind (f x) (fun y =>
      bind (comprehension f l') (fun ys => Ok (y :: ys)))
  end.

(** [l.index(x)] on a list of integers: position of the first occurrence,
    [ValueError] when there is none. *)
Fixpoint list_index (l : list Z) (x : Z) : outcome nat :=
  match l with
  | [] => Raise ValueError
  | y :: l' =>
      if y =? x then Ok O
      else bind (list_index l' x) (fun n => Ok (S n))
  end.

(** [l[-1]]. *)
Definition last_item (l : list Z) : outcome Z :=
  match rev l with
  | [] => Raise IndexError
  | x :: _ => Ok x
  end.

(** [l.sort()] on integers (ascending). *)
Fixpoint insert_sorted (x : Z) (l : list Z) : list Z :=
  match l with
  | [] => [x]
  | y :: l' => if x <=? y then x :: l else y :: insert_sorted x l'
  end.

Definition sort (l : list Z) : list Z := fold_right insert_sorted [] l.

(** [d[key]] on a dict kept as an association list in insertion order. *)
Fixpoint dict_get (d : list (string * Z)) (key : string) : outcome Z :=
  match d with
  | [] => Raise KeyError
  | (k, v) :: d' => if String.eqb k key then Ok v else dict_get d' key
  end.

(** [s.find(sub)]: index of the first occurrence, -1 when absent. *)
Definition find (s sub : string) : Z :=
  match index 0%nat sub s with
  | Some n => Z.of_nat n
  | None => -1
  end.

(** [sub in s]. *)
Definition contains (sub s : string) : bool :=
  match index 0%nat sub s with
  | Some _ => true
  | None => false
  end.

(** [s[k:]], negative [k] counting from the end. *)
Definition slice_from (s : string) (k : Z) : string :=
  let n := Z.of_nat (String.length s) in
  let k' := if k <? 0 then Z.max 0 (n + k) else k in
  substring (Z.to_nat k') (String.length s - Z.to_nat k') s.

Definition code (c : ascii) : Z := Z.of_N (N_of_ascii c).

Definition is_digit (c : ascii) : bool := (48 <=? code c) && (code c <=? 57).

(** [str.isnumeric] for one character below 256: the decimal digits, the
    superscripts 2, 3 and 1 (178, 179, 185) and the fractions one quarter,
    one half and three quarters (188, 189, 190). *)
Definition char_isnumeric (c : ascii) : bool :=
  is_digit c
  || (code c =? 178) || (code c =? 179) || (code c =? 185)
  || ((188 <=? code c) && (code c <=? 190)).

(** [s.isnumeric()]: every character is numeric and there is at least one. *)
Definition isnumeric (s : string) : bool :=
  match list_ascii_of_string s with
  | [] => false
  | l => forallb char_isnumeric l
  end.

(** White space skipped by [int(s)] at both ends of [s]: tab, line feed,
    vertical tab, form feed, carriage return, space, and below 256 also
    next-line (133) and no-break space (160). *)
Definition is_space (c : ascii) : bool :=
  ((9 <=? code c) && (code c <=? 13)) || (code c =? 32)
  || (code c =? 133) || (code c =? 160).

Fixpoint lstrip (l : list ascii) : list ascii :=
  match l with
  | [] => []
  | c :: l' => if is_space c then lstrip l' else l
  end.

Definition rstrip (l : list ascii) : list ascii := rev (lstrip (rev l)).

(** Digits of an integer literal, most significant first; an underscore is
    accepted only between two digits. *)
Fixpoint int_digits (l : list ascii) : option Decimal.uint :=
  match l with
  | [] => Some Decimal.Nil
  | c :: l' =>
      if Ascii.eqb c "_"%char then
        match l' with
        | d :: _ => if is_digit d then int_digits l' else None
        | [] => None
        end
      else DecimalString.uint_of_char c (int_digits l')
  end.

(** Largest number of digits [int(s)] converts (CPython's default for
    [sys.int_max_str_digits]). *)
Definition int_max_str_digits : Z := 4300.

Definition int_unsigned (l : list ascii) : outcome Z :=
  match l with
  | [] => Raise ValueError
  | c :: _ =>
      if is_digit c then
        match int_digits l with
        | Some u =>
            if Z.of_nat (Decimal.nb_digits u) <=? int_max_str_digits
            then Ok (Z.of_uint u)
            else Raise ValueError
        | None => Raise ValueError
        end
      else Raise ValueError
  end.

(** [int(s)] for a string argument, base 10: optional surrounding white
    space, optional sign, digits. Anything else is a [ValueError]. *)
Definition int (s : string) : outcome Z :=
  match rstrip (lstrip (list_ascii_of_string s)) with
  | c :: l' =>
      if Ascii.eqb c "+"%char then int_unsigned l'
      else if Ascii.eqb c "-"%char then
        bind (int_unsigned l') (fun n => Ok (- n))
      else int_unsigned (c :: l')
  | [] => Raise ValueError
  end.

(** ['%d' % n] and [f"{n}"] for an integer [n]. *)
Definition str (n : Z) : string := NilZero.string_of_int (Z.to_int n).

(** The characters of a sequence of decimal digits. *)
Definition chars_of_uint (u : Decimal.uint) : list ascii :=
  list_ascii_of_string (NilEmpty.string_of_uint u).

(** [range(a, b)]. *)
Fixpoint range_from (a : Z) (len : nat) : list Z :=
  match len with
  | O => []
  | S len' => a :: range_from (a + 1) len'
  end.

Definition range (a b : Z) : list Z := range_from a (Z.to_nat (b - a)).

End Py.

Import Py.

(** ** numpy primitives *)

Module Np.

(** Value stored in a [float32] array for the integer [z]: [z] itself up to
    2^24 in magnitude, beyond that the nearest number with a 24-bit
    significand, ties to even. (Finite values only: the formula is the
    stored value for magnitudes below 2^127.) *)
Definition float32 (z : Z) : Z :=
  let a := Z.abs z in
  if a <=? 2 ^ 24 then z
  else
    let e := Z.log2 a - 23 in
    let q := Z.shiftr a e in
    let r := Z.land a (Z.ones e) in
    let half := Z.shiftl 1 (e - 1) in
    let q' := if (half <? r) || ((r =? half) && Z.odd q) then q + 1 else q in
    Z.sgn z * Z.shiftl q' e.

(** [np.zeros(size)]: a negative size is rejected. *)
Definition zeros (size : Z) : outcome (list Z) :=
  if size <? 0 then Raise ValueError else Ok (repeat 0 (Z.to_nat size)).

Fixpoint list_set (l : list Z) (n : nat) (v : Z) : list Z :=
  match l, n with
  | [], _ => []
  | _ :: l', O => v :: l'
  | x :: l', S n' => x :: list_set l' n' v
  end.

(** [vec[index] = v] for an integer index: indices from [-len] to [len - 1]
    are accepted, the negative ones counting from the end. Of the others,
    those from 2^63 to 2^64 - 1 do not fit the signed machine integer that
    numpy indexes with and are an [OverflowError]; the rest is an
    [IndexError]. *)
Definition setitem (vec : list Z) (index v : Z) : outcome (list Z) :=
  let n := Z.of_nat (List.length vec) in
  if (index <? - n) || (n <=? index) then
    if (2 ^ 63 <=? index) && (index <? 2 ^ 64) then Raise OverflowError
    else Raise IndexError
  else Ok (list_set vec (Z.to_nat (if index <? 0 then index + n else index)) v).

Fixpoint where_set (vec : list Z) (mask : list bool) (v : Z) : list Z :=
  match vec, mask with
  | x :: vec', b :: mask' => (if b then v else x) :: where_set vec' mask' v
  | _, _ => vec
  end.

(** [vec[mask] = v] for a boolean array [mask]: the two lengths must agree. *)
Definition setitem_mask (vec : list Z) (mask : list bool) (v : Z)
  : outcome (list Z) :=
  if Nat.eqb (List.length vec) (List.length mask) then Ok (where_set vec mask v)
  else Raise IndexError.

(** Rank-3 arrays, as nested lists. *)
Definition tensor3 : Type := list (list (list Z)).

(** [np.reshape(rows, (1, -1, width))] where [rows] is an array of rows of
    length [width] (or the empty array): the missing dimension can be
    inferred only for a positive [width]. *)
Definition reshape_rows (rows : list (list Z)) (width : Z) : outcome tensor3 :=
  if width <=? 0 then Raise ValueError else Ok [rows].

(** [np.reshape(vec, (1, -1, 1))]. *)
Definition reshape_column (vec : list Z) : tensor3 :=
  [map (fun x => [x]) vec].

(** Floating-point numbers (the losses, the clock readings and what is
    computed from them) are not evaluated: a number is the expression that
    the code computes, over the values that the environment supplies, so
    that nothing is said of its rounding. [Float q] is a supplied value or
    a literal, named by a rational. *)
#[local] Unset Elimination Schemes.
Inductive pyfloat : Type :=
| Float (q : Q)
| Fadd (x y : pyfloat)
| Fsub (x y : pyfloat)
| Fmul (x y : pyfloat)
| Fdiv (x y : pyfloat)
| Fmean (l : list pyfloat).
#[local] Set Elimination Schemes.

(** [float(n)] for an integer. *)
Definition float_of_int (n : Z) : pyfloat := Float (inject_Z n).

(** [np.mean] of a list of numbers. *)
Definition mean (l : list pyfloat) : pyfloat := Fmean l.

End Np.

(** ** The sample encoder *)

(** [onehot(index, size)], lines 39-48. *)
Definition onehot (index size : Z) : outcome (list Z) :=
  bind (Np.zeros size) (fun vec =>
  Np.setitem vec index 1).

(** The loop [while len(output_vec) < len(input_vec): output_vec.append(code)]
    of lines 63-64; [fuel] bounds the number of iterations. *)
Fixpoint while_append (fuel : nat) (output_vec : list Z) (n : nat) (code : Z)
  : list Z :=
  match fuel with
  | O => output_vec
  | S fuel' =>
      if Nat.ltb (List.length output_vec) n
      then while_append fuel' (output_vec ++ [code]) n code
      else output_vec
  end.

(** What [prepare_sample] returns: input, target, sequence length, weights. *)
Definition encoded : Type := (Np.tensor3 * Np.tensor3 * Z * Np.tensor3)%type.

(** [prepare_sample(sample, target_code, word_space_size)], lines 51-79. *)
Definition prepare_sample (sample : list Z) (target_code word_space_size : Z)
  : outcome encoded :=
  bind (list_index sample target_code) (fun idx =>
  let input_vec := map Np.float32 (firstn idx sample) in
  let output_vec := skipn (S idx) sample in
  let output_vec :=
    while_append (List.length input_vec) output_vec (List.length input_vec) target_code in
  let output_vec := map Np.float32 output_vec in
  let seq_len := List.length input_vec in
  let weights_vec := repeat 0 seq_len in
  let target_mask :=
    map (fun x => negb (x =? Np.float32 target_code)) output_vec in
  bind (Np.setitem_mask weights_vec target_mask 1) (fun weights_vec =>
  bind (comprehension (fun code => onehot code word_space_size) input_vec)
    (fun input_vec =>
  bind (comprehension (fun code => onehot code word_space_size) output_vec)
    (fun output_vec =>
  bind (Np.reshape_rows input_vec word_space_size) (fun input3 =>
  bind (Np.reshape_rows output_vec word_space_size) (fun output3 =>
  Ok (input3, output3, Z.of_nat seq_len, Np.reshape_column weights_vec))))))).

Example f32_ex : Np.float32 16777217 = 16777216 /\ Np.float32 16777219 = 16777220 /\ Np.float32 (-16777219) = -16777220 /\ Np.float32 33554434 = 33554432 /\ Np.float32 33554438 = 33554440.
Proof. repeat split; reflexivity. Qed.
Example neg_id : prepare_sample [-1; 0] 0 10 = Ok ([[ [0;0;0;0;0;0;0;0;0;1] ]], [[ [1;0;0;0;0;0;0;0;0;0] ]], 1, [[ [0] ]]).
Proof. reflexivity. Qed.

(** *** Vocabulary used to state the properties of the encoder *)

(** The vector of length [size] with 1 at position [k] and 0 elsewhere. *)
Definition unit_vector (k size : nat) : list Z :=
  map (fun j => if Nat.eqb j k then 1 else 0) (seq 0 size).

(** The one-hot row that stands for the id [c] in a vocabulary of [size]. *)
Definition one_hot_row (size c : Z) : list Z :=
  unit_vector (Z.to_nat (c mod size)) (Z.to_nat size).

(** The ids that index a vector of length [size] without error. *)
Definition indexable (size c : Z) : Prop := - size <= c < size.

(** The integers of magnitude at most 2^24, the range in which [float32]
    holds every integer exactly, and those it holds as a finite value. *)
Definition float32_exact (z : Z) : Prop := Z.abs z <= 2 ^ 24.
Definition float32_finite (z : Z) : Prop := Z.abs z < 2 ^ 127.

(** The answer as the encoder completes it for a prefix of length [n]. *)
Definition padded_answer (n : nat) (answer : list Z) (code : Z) : list Z :=
  answer ++ repeat code (n - List.length answer).

(** The weight given to one id of the answer. *)
Definition weight_of (code a : Z) : Z := if a =? code then 0 else 1.

(** Sum of the entries of a rank-3 array. *)
Definition tensor_sum (t : Np.tensor3) : Z :=
  fold_right Z.add 0 (List.concat (List.concat t)).

(** Time dimension of a rank-3 array with one batch entry. *)
Definition time_steps (t : Np.tensor3) : list nat := map (@List.length _) t.

(** ** The environment of a run and the state of [main] *)

(** Why [open] or [json.load] gives no sample for a listed file. *)
Inductive file_error : Type :=
| Missing
| Directory
| NotJSON
| OtherFailure (exception : string).

(** The exception raised for it. *)
Definition file_exception (fe : file_error) : exn :=
  match fe with
  | Missing => FileNotFoundError
  | Directory => IsADirectoryError
  | NotJSON => JSONDecodeError
  | OtherFailure name => OtherError name
  end.

(** What a run of [main] reads from outside this file. *)
Record world : Type := {
  (** the option list returned by [getopt.getopt], pairs of name and value *)
  argv_options : list (string * string);
  (** [data/encoded/lexicon-dict.pkl], in key order *)
  lexicon_dict : list (string * Z);
  (** [os.listdir] of [data/encoded/train] *)
  data_files : list string;
  (** what opening a file of [data/encoded/train] and [json.load] give: the
      sample, or the reason why there is none *)
  train_file : string -> file_error + list Z;
  (** [os.listdir(ckpts_dir)], or [None] when [checkpoints/] does not exist *)
  ckpts_dir : option (list string);
  (** the position drawn by the k-th [np.random.choice] *)
  random_choice : nat -> nat;
  (** the loss returned by the k-th [session.run] *)
  model_loss : nat -> Np.pyfloat;
  (** the reading of the k-th [time.time()] *)
  time_time : nat -> Np.pyfloat;
  (** a [KeyboardInterrupt] arrives before the statement of the loop body
      with this number, if any *)
  interrupt_at : option nat
}.

(** The [feed_dict] of one [session.run]. *)
Definition feed : Type := encoded.

(** One progress report: step, mean loss of the window, average duration of
    a reporting interval (minutes), estimated time to completion (hours). *)
Record report : Type := {
  report_step : Z;
  report_mean : Np.pyfloat;
  report_avg_time : Np.pyfloat;
  report_estimate : Np.pyfloat
}.

(** The variables of [main] that change during a run, and the log of its
    effects on the model, the checkpoint directory and the terminal. *)
Record state : Type := {
  pending_interrupt : option nat;
  draws : nat;
  time_calls : nat;
  iterations_printed : list (Z * Z);
  session_runs : list feed;
  last_100_losses : list Np.pyfloat;
  start_time_100 : Np.pyfloat;
  avg_100_time : Np.pyfloat;
  avg_counter : Z;
  reports : list report;
  restored : list string;
  saved : list string
}.

Definition initial_state (w : world) : state :=
  {| pending_interrupt := interrupt_at w; draws := 0; time_calls := 0;
     iterations_printed := []; session_runs := []; last_100_losses := [];
     start_time_100 := Np.float_of_int 0; avg_100_time := Np.float_of_int 0;
     avg_counter := 0; reports := []; restored := []; saved := [] |}.

(** ** A state and exception monad for the body of [main] *)

Definition M (A : Type) : Type := state -> outcome A * state.

Definition ret {A : Type} (a : A) : M A := fun st => (Ok a, st).

Definition lift {A : Type} (o : outcome A) : M A := fun st => (o, st).

Definition mbind {A B : Type} (c : M A) (k : A -> M B) : M B :=
  fun st =>
    match c st with
    | (Ok a, st') => k a st'
    | (Raise e, st') => (Raise e, st')
    | (Exit n, st') => (Exit n, st')
    end.

Notation "x <- c ;; k" := (mbind c (fun x => k))
  (at level 61, c at next level, right associativity).
Notation "c ;;; k" := (mbind c (fun _ => k))
  (at level 61, right associativity).

(** A statement boundary inside the [try] block: the pending interrupt, if
    it is due, surfaces here as [KeyboardInterrupt]. *)
Definition tick : M unit :=
  fun st =>
    match pending_interrupt st with
    | Some O =>
        (Raise KeyboardInterrupt,
         {| pending_interrupt := None; draws := draws st;
            time_calls := time_calls st;
            iterations_printed := iterations_printed st;
            session_runs := session_runs st;
            last_100_losses := last_100_losses st;
            start_time_100 := start_time_100 st;
            avg_100_time := avg_100_time st; avg_counter := avg_counter st;
            reports := reports st; restored := restored st;
            saved := saved st |})
    | Some (S k) =>
        (Ok tt,
         {| pending_interrupt := Some k; draws := draws st;
            time_calls := time_calls st;
            iterations_printed := iterations_printed st;
            session_runs := session_runs st;
            last_100_losses := last_100_losses st;
            start_time_100 := start_time_100 st;
            avg_100_time := avg_100_time st; avg_counter := avg_counter st;
            reports := reports st; restored := restored st;
            saved := saved st |})
    | None => (Ok tt, st)
    end.

(** [llprint("\rIteration %d/%d" % (i, end))]. *)
Definition print_iteration (i end_ : Z) : M unit :=
  fun st =>
    (Ok tt,
     {| pending_interrupt := pending_interrupt st; draws := draws st;
        time_calls := time_calls st;
        iterations_printed := iterations_printed st ++ [(i, end_)];
        session_runs := session_runs st;
        last_100_losses := last_100_losses st;
        start_time_100 := start_time_100 st;
        avg_100_time := avg_100_time st; avg_counter := avg_counter st;
        reports := reports st; restored := restored st; saved := saved st |}).

(** [np.random.choice(data_files, 1)[0]]: an empty list is rejected. *)
Definition random_sample_name (w : world) : M string :=
  fun st =>
    match data_files w with
    | [] => (Raise ValueError, st)
    | name :: names =>
        (Ok (nth (Nat.modulo (random_choice w (draws st))
                             (List.length (data_files w)))
                 (data_files w) name),
         {| pending_interrupt := pending_interrupt st; draws := S (draws st);
            time_calls := time_calls st;
            iterations_printed := iterations_printed st;
            session_runs := session_runs st;
            last_100_losses := last_100_losses st;
            start_time_100 := start_time_100 st;
            avg_100_time := avg_100_time st; avg_counter := avg_counter st;
            reports := reports st; restored := restored st;
            saved := saved st |})
    end.

(** [json.load(open(os.path.join(data_dir, 'train', name)))]: the sample,
    or the exception of [open] (no such file, a directory, ...) or of
    [json.load] (text that is not JSON, ...). *)
Definition json_load (w : world) (name : string) : M (list Z) :=
  lift (match train_file w name with
        | inr sample => Ok sample
        | inl fe => Raise (file_exception fe)
        end).

(** [time.time()]. *)
Definition time (w : world) : M Np.pyfloat :=
  fun st =>
    (Ok (time_time w (time_calls st)),
     {| pending_interrupt := pending_interrupt st; draws := draws st;
        time_calls := S (time_calls st);
        iterations_printed := iterations_printed st;
        session_runs := session_runs st;
        last_100_losses := last_100_losses st;
        start_time_100 := start_time_100 st;
        avg_100_time := avg_100_time st; avg_counter := avg_counter st;
        reports := reports st; restored := restored st; saved := saved st |}).

(** [session.run([loss, apply_gradients, ...], feed_dict=...)]: one forward
    and backward pass and one optimizer step of the external model. *)
Definition session_run (w : world) (fd : feed) : M Np.pyfloat :=
  fun st =>
    (Ok (model_loss w (List.length (session_runs st))),
     {| pending_interrupt := pending_interrupt st; draws := draws st;
        time_calls := time_calls st;
        iterations_printed := iterations_printed st;
        session_runs := session_runs st ++ [fd];
        last_100_losses := last_100_losses st;
        start_time_100 := start_time_100 st;
        avg_100_time := avg_100_time st; avg_counter := avg_counter st;
        reports := reports st; restored := restored st; saved := saved st |}).

(** [ncomputer.restore(session, ckpts_dir, name)]: the request is logged. *)
Definition ncomputer_restore (name : string) : M unit :=
  fun st =>
    (Ok tt,
     {| pending_interrupt := pending_interrupt st; draws := draws st;
        time_calls := time_calls st;
        iterations_printed := iterations_printed st;
        session_runs := session_runs st;
        last_100_losses := last_100_losses st;
        start_time_100 := start_time_100 st;
        avg_100_time := avg_100_time st; avg_counter := avg_counter st;
        reports := reports st; restored := restored st ++ [name];
        saved := saved st |}).

(** [ncomputer.save(session, ckpts_dir, name)]: the request is logged. *)
Definition ncomputer_save (name : string) : M unit :=
  fun st =>
    (Ok tt,
     {| pending_interrupt := pending_interrupt st; draws := draws st;
        time_calls := time_calls st;
        iterations_printed := iterations_printed st;
        session_runs := session_runs st;
        last_100_losses := last_100_losses st;
        start_time_100 := start_time_100 st;
        avg_100_time := avg_100_time st; avg_counter := avg_counter st;
        reports := reports st; restored := restored st;
        saved := saved st ++ [name] |}).

(** [sys.exit(status)]. *)
Definition sys_exit {A : Type} (status : Z) : M A :=
  fun st => (Exit status, st).

(** ** [main]: options and resume (lines 110-124 and 176-201) *)

(** The three variables set from the command line. *)
Record options : Type := {
  from_checkpoint : option string;
  iterations : Z;
  start_step : Z
}.

(** Lines 110-113. *)
Definition default_options : options :=
  {| from_checkpoint := None; iterations := 100000; start_step := 0 |}.

(** One turn of the loop [for opt in options], lines 117-124. *)
Definition read_option (o : options) (opt : string * string) : outcome options :=
  if String.eqb (fst opt) "--checkpoint" then
    Ok {| from_checkpoint := Some (snd opt); iterations := iterations o;
          start_step := start_step o |}
  else if String.eqb (fst opt) "--iterations" then
    bind (Py.int (snd opt)) (fun n =>
    Ok {| from_checkpoint := from_checkpoint o; iterations := n;
          start_step := start_step o |})
  else if String.eqb (fst opt) "--start" then
    bind (Py.int (snd opt)) (fun n =>
    Ok {| from_checkpoint := from_checkpoint o; iterations := iterations o;
          start_step := n |})
  else Ok o.

Fixpoint read_options (o : options) (opts : list (string * string))
  : outcome options :=
  match opts with
  | [] => Ok o
  | opt :: opts' => bind (read_option o opt) (fun o' => read_options o' opts')
  end.

(** [checkpoint[checkpoint.find("-") + 1:]], lines 183 and 195. *)
Definition checkpoint_suffix (checkpoint : string) : string :=
  slice_from checkpoint (find checkpoint "-" + 1).

(** The list [checkpoint_numbers] of line 183: the integers read from the
    entries whose suffix [isnumeric]. *)
Definition checkpoint_numbers (checkpoints : list string) : outcome (list Z) :=
  comprehension Py.int
    (filter isnumeric (map checkpoint_suffix checkpoints)).

(** Lines 180-187: the scan of the checkpoint directory. It yields the
    values given to [start] and [end], when it assigns them. *)
Definition resume_from_directory (w : world) : M (option (Z * Z)) :=
  match ckpts_dir w with
  | Some checkpoints =>
      if negb (Nat.eqb (List.length checkpoints) 0)
         && existsb (contains "step-") checkpoints
      then
        numbers <- lift (checkpoint_numbers checkpoints) ;;
        let numbers := sort numbers in
        latest <- lift (last_item numbers) ;;
        ncomputer_restore ("step-" ++ Py.str latest) ;;;
        ret (Some (latest, 100000))
      else ret None
  | None => ret None
  end.

Definition set_start_time (t : Np.pyfloat) : M unit :=
  fun st =>
    (Ok tt,
     {| pending_interrupt := pending_interrupt st; draws := draws st;
        time_calls := time_calls st;
        iterations_printed := iterations_printed st;
        session_runs := session_runs st;
        last_100_losses := last_100_losses st;
        start_time_100 := t;
        avg_100_time := avg_100_time st; avg_counter := avg_counter st;
        reports := reports st; restored := restored st; saved := saved st |}).

(** Lines 110-201 of [main]: the values of [start] and [end] with which the
    loop is entered. *)
Definition main_startup (w : world) : M (Z * Z) :=
  opts <- lift (read_options default_options (argv_options w)) ;;
  assigned <-
    match from_checkpoint opts with
    | Some name => ncomputer_restore name ;;; ret None
    | None => resume_from_directory w
    end ;;
  let start_end :=
    match assigned with
    | Some se => se
    | None => (0, 100000)
    end in
  start <-
    match from_checkpoint opts with
    | Some name => lift (Py.int (checkpoint_suffix name))
    | None => ret (fst start_end)
    end ;;
  t <- time w ;;
  set_start_time t ;;;
  ret (start, snd start_end).

(** ** [main]: the words printed for the target (lines 233-236) *)

(** [np.where(an_array == 1)[0][0]]: the position of the first entry equal
    to 1; [IndexError] when there is none. *)
Fixpoint first_one (an_array : list Z) : outcome nat :=
  match an_array with
  | [] => Raise IndexError
  | x :: an_array' =>
      if x =? 1 then Ok O
      else bind (first_one an_array') (fun k => Ok (S k))
  end.

(** [list(lexicon_dict.keys())[k]]. *)
Definition key_at (d : list (string * Z)) (k : nat) : outcome string :=
  match nth_error (map fst d) k with
  | Some key => Ok key
  | None => Raise IndexError
  end.

(** The list [words] of lines 233-236: for every row of [target_output[0]],
    the key found in the lexicon at the position of the row's first 1. (The
    inner [for] runs over the one-element tuple that [np.where] returns,
    that is once for every row.) *)
Definition target_words (d : list (string * Z)) (target_output : Np.tensor3)
  : outcome (list string) :=
  match target_output with
  | [] => Raise IndexError
  | rows :: _ =>
      comprehension (fun an_array => bind (first_one an_array) (key_at d)) rows
  end.

(** ** [main]: the training loop (lines 203-268) *)

(** Arguments that a call site passes. *)
Inductive pyarg : Type :=
| ArgList (l : list Z)
| ArgInt (n : Z)
| ArgDict (d : list (string * Z)).

(** A call of [prepare_sample] with positional arguments: the function has
    three parameters, and a call with another number of arguments raises
    [TypeError] before the body runs. *)
Definition call_prepare_sample (args : list pyarg) : outcome encoded :=
  match args with
  | [ArgList sample; ArgInt target_code; ArgInt word_space_size] =>
      prepare_sample sample target_code word_space_size
  | _ => Raise TypeError
  end.

(** [word_space_size = len(lexicon_dict)], line 102. *)
Definition word_space_size (w : world) : Z :=
  Z.of_nat (List.length (lexicon_dict w)).

Definition append_loss (loss_value : Np.pyfloat) : M unit :=
  fun st =>
    (Ok tt,
     {| pending_interrupt := pending_interrupt st; draws := draws st;
        time_calls := time_calls st;
        iterations_printed := iterations_printed st;
        session_runs := session_runs st;
        last_100_losses := last_100_losses st ++ [loss_value];
        start_time_100 := start_time_100 st;
        avg_100_time := avg_100_time st; avg_counter := avg_counter st;
        reports := reports st; restored := restored st; saved := saved st |}).

(** Lines 246-249: the elapsed minutes since the last report enter the
    running average. *)
Definition update_average (end_time_100 : Np.pyfloat) : M unit :=
  fun st =>
    let elapsed_time :=
      Np.Fdiv (Np.Fsub end_time_100 (start_time_100 st)) (Np.float_of_int 60) in
    let avg_counter' := avg_counter st + 1 in
    let avg_100_time' :=
      Np.Fadd (avg_100_time st)
        (Np.Fmul (Np.Fdiv (Np.float_of_int 1) (Np.float_of_int avg_counter'))
                 (Np.Fsub elapsed_time (avg_100_time st))) in
    (Ok tt,
     {| pending_interrupt := pending_interrupt st; draws := draws st;
        time_calls := time_calls st;
        iterations_printed := iterations_printed st;
        session_runs := session_runs st;
        last_100_losses := last_100_losses st;
        start_time_100 := start_time_100 st;
        avg_100_time := avg_100_time'; avg_counter := avg_counter';
        reports := reports st; restored := restored st; saved := saved st |}).

(** Lines 244 and 250-253: what is printed. *)
Definition print_report (i end_ : Z) (mean : Np.pyfloat) : M unit :=
  fun st =>
    let estimated_time :=
      Np.Fdiv
        (Np.Fmul (avg_100_time st)
           (Np.Fdiv (Np.float_of_int (end_ - i)) (Np.float_of_int 100)))
        (Np.float_of_int 60) in
    (Ok tt,
     {| pending_interrupt := pending_interrupt st; draws := draws st;
        time_calls := time_calls st;
        iterations_printed := iterations_printed st;
        session_runs := session_runs st;
        last_100_losses := last_100_losses st;
        start_time_100 := start_time_100 st;
        avg_100_time := avg_100_time st; avg_counter := avg_counter st;
        reports :=
          reports st ++
          [{| report_step := i; report_mean := mean;
              report_avg_time := avg_100_time st;
              report_estimate := estimated_time |}];
        restored := restored st; saved := saved st |}).

(** Line 256. *)
Definition reset_losses : M unit :=
  fun st =>
    (Ok tt,
     {| pending_interrupt := pending_interrupt st; draws := draws st;
        time_calls := time_calls st;
        iterations_printed := iterations_printed st;
        session_runs := session_runs st;
        last_100_losses := [];
        start_time_100 := start_time_100 st;
        avg_100_time := avg_100_time st; avg_counter := avg_counter st;
        reports := reports st; restored := restored st; saved := saved st |}).

(** The block under [if summarize:], lines 239-256. *)
Definition summarize_block (w : world) (i end_ : Z) : M unit :=
  tick ;;;
  mean <- (fun st => (Ok (Np.mean (last_100_losses st)), st)) ;;
  tick ;;;
  end_time_100 <- time w ;;
  tick ;;;
  update_average end_time_100 ;;;
  tick ;;;
  print_report i end_ mean ;;;
  tick ;;;
  t <- time w ;;
  set_start_time t ;;;
  tick ;;;
  reset_losses.

(** Lines 213-261: the part of the [try] block that follows the encoding.
    (Lines 216-217 and 230-231 handle the output of the model and lines
    240-243 print; they have no effect on the state kept here.) *)
Definition after_encoding (w : world) (i end_ : Z) (fd : feed) : M unit :=
  let summarize := i mod 100 =? 0 in
  let take_checkpoint := negb (i =? 0) && (i mod 200 =? 0) in
  let '(_, target_output, _, _) := fd in
  tick ;;;
  loss_value <- session_run w fd ;;
  tick ;;;
  words <- lift (target_words (lexicon_dict w) target_output) ;;
  tick ;;;
  append_loss loss_value ;;;
  (if summarize then summarize_block w i end_ else ret tt) ;;;
  (if take_checkpoint
   then tick ;;; ncomputer_save ("step-" ++ Py.str i)
   else ret tt).

(** Lines 205-261: the [try] block of one iteration. *)
Definition try_block (w : world) (i end_ : Z) : M unit :=
  tick ;;;
  print_iteration i end_ ;;;
  tick ;;;
  name <- random_sample_name w ;;
  tick ;;;
  sample <- json_load w name ;;
  tick ;;;
  target_code <- lift (dict_get (lexicon_dict w) "=") ;;
  fd <- lift (call_prepare_sample
                [ArgList sample; ArgInt target_code;
                 ArgInt (word_space_size w); ArgDict (lexicon_dict w)]) ;;
  after_encoding w i end_ fd.

(** Lines 263-268: the handler of [KeyboardInterrupt]. *)
Definition interrupt_handler (i : Z) : M unit :=
  ncomputer_save ("step-" ++ Py.str i) ;;;
  sys_exit 0.

(** One iteration of the loop: the [try] block, and the handler when the
    block raises [KeyboardInterrupt]; any other exception escapes. *)
Definition iteration (w : world) (i end_ : Z) : M unit :=
  fun st =>
    match try_block w i end_ st with
    | (Raise KeyboardInterrupt, st') => interrupt_handler i st'
    | r => r
    end.

(** [for i in range(start, end + 1)], over the list of the values of [i]. *)
Fixpoint for_loop (w : world) (steps : list Z) (end_ : Z) : M unit :=
  match steps with
  | [] => ret tt
  | i :: steps' => iteration w i end_ ;;; for_loop w steps' end_
  end.

(** [main()], from the parsing of the options on. *)
Definition main (w : world) : outcome unit * state :=
  (start_end <- main_startup w ;;
   for_loop w (range (fst start_end) (snd start_end + 1)) (snd start_end))
    (initial_state w).

(** *** Vocabulary used to state the properties of the printed words *)

(** The key that the lexicon holds at the position of the id [c] modulo the
    size of the lexicon. *)
Definition word_of (d : list (string * Z)) (c : Z) : string :=
  nth (Z.to_nat (c mod Z.of_nat (List.length d))) (map fst d) ""%string.

(** A lexicon that numbers its tokens in key order: the k-th key has id k. *)
Definition positional (d : list (string * Z)) : Prop :=
  forall (k : nat) (key : string) (id : Z),
    nth_error d k = Some (key, id) -> id = Z.of_nat k.

(** A row that has the given width, holds only 0 and 1, and sums to 1. *)
Definition is_one_hot (size : Z) (row : list Z) : Prop :=
  Z.of_nat (List.length row) = size
  /\ Forall (fun x => x = 0 \/ x = 1) row
  /\ fold_right Z.add 0 row = 1.

(** *** Vocabulary used to state the properties of the startup *)

(** The name under which the code saves the checkpoint of step [i]
    (['step-%d' % i], lines 260 and 266). *)
Definition checkpoint_name (i : Z) : string := ("step-" ++ Py.str i)%string.

(** The same world with another option list. *)
Definition with_options (w : world) (opts : list (string * string)) : world :=
  {| argv_options := opts; lexicon_dict := lexicon_dict w;
     data_files := data_files w; train_file := train_file w;
     ckpts_dir := ckpts_dir w; random_choice := random_choice w;
     model_loss := model_loss w; time_time := time_time w;
     interrupt_at := interrupt_at w |}.

(** ** [main]: gradient clipping and summaries (lines 153-165) *)

(** What [compute_gradients] pairs with a variable: the entries of its
    gradient, or [None]. A variable is known by its name. *)
Definition gradient : Type := option (list Q).

(** [tf.clip_by_value(t, lo, hi)]: entry by entry, the minimum with [hi],
    then the maximum with [lo]. *)
Definition clip_by_value (t : list Q) (lo hi : Q) : list Q :=
  map (fun x =>
         let m := if Qle_bool x hi then x else hi in
         if Qle_bool lo m then m else lo) t.

(** [l[i] = x] for a position of the list. *)
Fixpoint list_assign {A : Type} (l : list A) (i : nat) (x : A) : list A :=
  match l, i with
  | [], _ => []
  | _ :: l', O => x :: l'
  | y :: l', S i' => y :: list_assign l' i' x
  end.

(** Lines 156-158: the loop over [enumerate(gradients)] that replaces, in
    the list itself, every gradient that is not [None] by its clipped
    value. [i] is the position reached, [fuel] bounds the positions left. *)
Fixpoint clip_loop (fuel i : nat) (gradients : list (gradient * string))
  : list (gradient * string) :=
  match fuel with
  | O => gradients
  | S fuel' =>
      match nth_error gradients i with
      | Some (Some grad, var) =>
          clip_loop fuel' (S i)
            (list_assign gradients i
               (Some (clip_by_value grad (inject_Z (-10)) (inject_Z 10)), var))
      | Some (None, _) => clip_loop fuel' (S i) gradients
      | None => gradients
      end
  end.

Definition clip_gradients (gradients : list (gradient * string))
  : list (gradient * string) :=
  clip_loop (List.length gradients) 0 gradients.

(** Lines 153-165: the names of the summaries, a histogram
    [var.name + '/grad'] for every gradient that is not [None], then the
    scalar "Loss". *)
Definition summaries (gradients : list (gradient * string)) : list string :=
  (flat_map (fun gv : gradient * string =>
               match fst gv with
               | Some _ => [(snd gv ++ "/grad")%string]
               | None => []
               end) gradients
   ++ ["Loss"%string])%list.

(** *** Vocabulary used to state the properties of the clipping *)

(** One entry of the list after the loop, read off the entry before. *)
Definition clipped_entry (gv : gradient * string) : gradient * string :=
  (option_map (fun grad => clip_by_value grad (inject_Z (-10)) (inject_Z 10))
              (fst gv), snd gv).

(** Every entry of a gradient, if there is one, lies in [-10, 10]. *)
Definition within_bounds (g : gradient) : Prop :=
  match g with
  | Some grad =>
      Forall (fun x => (inject_Z (-10) <= x /\ x <= inject_Z 10)%Q) grad
  | None => True
  end.

(** ** Concrete runs *)

(** A small installation: a lexicon of ten tokens in which ['='] has id 0,
    and one training file holding the sample [3, 7, 7, 9, 0, 9, 0]. The
    options, the content of [checkpoints/] and the arrival of an interrupt
    vary from run to run. *)
Definition small_world (opts : list (string * string))
    (dir : option (list string)) (interrupt : option nat) : world :=
  {| argv_options := opts;
     lexicon_dict :=
       [("="%string, 0); ("a"%string, 1); ("b"%string, 2); ("c"%string, 3);
        ("d"%string, 4); ("e"%string, 5); ("f"%string, 6); ("g"%string, 7);
        ("h"%string, 8); ("i"%string, 9)];
     data_files := ["sample-0.json"%string];
     train_file := fun name =>
       if String.eqb name "sample-0.json" then inr [3; 7; 7; 9; 0; 9; 0]
       else inl Missing;
     ckpts_dir := dir;
     random_choice := fun _ => 0%nat;
     model_loss := fun k => Np.float_of_int (Z.of_nat k);
     time_time := fun k => Np.float_of_int (60 * Z.of_nat k);
     interrupt_at := interrupt |}.

(** No option, no [checkpoints/] directory. *)
Definition fresh_world : world := small_world [] None None.

(** No option; [checkpoints/] holds step-50, step-120 and step-7. *)
Definition resume_world : world :=
  small_world [] (Some ["step-50"%string; "step-120"%string; "step-7"%string])
    None.

(** [--iterations=5 --start=3], no [checkpoints/] directory. *)
Definition bounded_world : world :=
  small_world [("--iterations"%string, "5"%string);
               ("--start"%string, "3"%string)] None None.

(** No option; [checkpoints/] holds step-5 and an unrelated lr-999. *)
Definition stray_file_world : world :=
  small_world [] (Some ["step-5"%string; "lr-999"%string]) None.

(** No option; [checkpoints/] holds only step-abc. *)
Definition malformed_entry_world : world :=
  small_world [] (Some ["step-abc"%string]) None.



(** [--checkpoint=step-57], and an interrupt that arrives while the first
    iteration opens its sample file. *)
Definition interrupted_world : world :=
  small_world [("--checkpoint"%string, "step-57"%string)] None (Some 2%nat).

(** The state in which a run enters its loop. *)
Definition state_at_loop (w : world) : state :=
  snd (main_startup w (initial_state w)).

(* ================================================================== *)
(** * Part II. Properties                                              *)
(* ================================================================== *)

(** ** Sanity checks of the primitives on concrete values *)

Example int_plain : Py.int "120" = Ok 120.
Proof. reflexivity. Qed.

Example int_signed_spaced : Py.int " -5_0 " = Ok (-50).
Proof. reflexivity. Qed.

Example int_rejects :
  Py.int "abc" = Raise ValueError /\ Py.int "1__2" = Raise ValueError
  /\ Py.int "_1" = Raise ValueError /\ Py.int "" = Raise ValueError
  /\ Py.int "- 1" = Raise ValueError.
Proof. repeat split; reflexivity. Qed.

Example str_values : Py.str 120 = "120" /\ Py.str 0 = "0" /\ Py.str (-7) = "-7".
Proof. repeat split; reflexivity. Qed.

Example find_slice_values :
  Py.find "step-120" "-" = 4 /\ Py.find "final" "-" = -1
  /\ checkpoint_suffix "step-120" = "120" /\ checkpoint_suffix "final" = "final".
Proof. repeat split; reflexivity. Qed.

Example float32_values :
  Np.float32 16777217 = 16777216 /\ Np.float32 16777219 = 16777220
  /\ Np.float32 (-16777219) = -16777220 /\ Np.float32 33554438 = 33554440.
Proof. repeat split; reflexivity. Qed.

(** The end-to-end scenario: sample [3,7,7,9,SEP,9,SEP] with SEP = 0 and a
    vocabulary of 10. *)
Example prepare_sample_scenario :
  prepare_sample [3; 7; 7; 9; 0; 9; 0] 0 10 =
  Ok ([[ [0;0;0;1;0;0;0;0;0;0]; [0;0;0;0;0;0;0;1;0;0];
         [0;0;0;0;0;0;0;1;0;0]; [0;0;0;0;0;0;0;0;0;1] ]],
      [[ [0;0;0;0;0;0;0;0;0;1]; [1;0;0;0;0;0;0;0;0;0];
         [1;0;0;0;0;0;0;0;0;0]; [1;0;0;0;0;0;0;0;0;0] ]],
      4, [[ [1]; [0]; [0]; [0] ]]).
Proof. reflexivity. Qed.

(** ** Strings and integers *)

Section PyStrings.

Local Open Scope nat_scope.

Lemma prefix_dash (a : ascii) (s : string) :
  prefix "-" (String a s) = if ascii_dec "-" a then true else false.
Proof. destruct s; cbn; destruct (ascii_dec "-" a); reflexivity. Qed.

Lemma index_dash_absent (p rest : string) :
  contains "-" p = false ->
  index 0 "-" (p ++ String "-" rest) = Some (String.length p).
Proof.
  unfold contains. induction p as [|a p IH]; intros H.
  - cbn [append String.length index]. rewrite prefix_dash.
    destruct (ascii_dec "-" "-") as [_|E]; [reflexivity|now elim E].
  - cbn [append String.length]. cbn [index] in H |- *.
    rewrite prefix_dash in H. rewrite prefix_dash.
    destruct (ascii_dec "-" a) as [E|E]; [discriminate H|].
    destruct (index 0 "-" p) eqn:Hp; [discriminate H|].
    rewrite IH by reflexivity. reflexivity.
Qed.

Lemma substring_all (s : string) : substring 0 (String.length s) s = s.
Proof. induction s as [|b s IHs]; cbn; [reflexivity|]. f_equal. exact IHs. Qed.

Lemma substring_after (p rest : string) (c : ascii) :
  substring (S (String.length p))
            (String.length (p ++ String c rest) - S (String.length p))
            (p ++ String c rest) = rest.
Proof.
  induction p as [|a p IH]; cbn [append String.length substring].
  - cbn [Nat.sub]. rewrite Nat.sub_0_r. apply substring_all.
  - exact IH.
Qed.

End PyStrings.

Lemma find_dash (p rest : string) :
  contains "-" p = false ->
  find (p ++ String "-"%char rest) "-" = Z.of_nat (String.length p).
Proof.
  intros H. unfold find. rewrite (index_dash_absent p rest H). reflexivity.
Qed.

Lemma checkpoint_suffix_dash (p rest : string) :
  contains "-" p = false ->
  checkpoint_suffix (p ++ String "-"%char rest) = rest.
Proof.
  intros H. unfold checkpoint_suffix, slice_from. rewrite (find_dash p rest H).
  replace (Z.of_nat (String.length p) + 1 <? 0) with false
    by (symmetry; apply Z.ltb_ge; lia).
  replace (Z.to_nat (Z.of_nat (String.length p) + 1))
    with (S (String.length p)) by lia.
  apply substring_after.
Qed.

(** *** [int] reads back what [str] writes *)

Lemma digit_facts (c : ascii) :
  is_digit c = true ->
  is_space c = false /\ Ascii.eqb c "_" = false
  /\ Ascii.eqb c "+" = false /\ Ascii.eqb c "-" = false.
Proof.
  destruct c as [[] [] [] [] [] [] [] []]; vm_compute; intros H;
    try discriminate H; repeat split.
Qed.

Lemma chars_of_uint_digits (u : Decimal.uint) :
  Forall (fun c => is_digit c = true) (chars_of_uint u).
Proof.
  unfold chars_of_uint.
  induction u; cbn; constructor; try reflexivity; assumption.
Qed.

Lemma int_digits_chars (u : Decimal.uint) :
  int_digits (chars_of_uint u) = Some u.
Proof.
  unfold chars_of_uint.
  induction u; cbn [NilEmpty.string_of_uint list_ascii_of_string int_digits];
    try reflexivity;
    match goal with
    | |- context [Ascii.eqb ?c "_"] =>
        change (Ascii.eqb c "_") with false; cbv iota
    end; rewrite IHu; reflexivity.
Qed.

Lemma nb_digits_chars (u : Decimal.uint) :
  Decimal.nb_digits u = List.length (chars_of_uint u).
Proof.
  unfold chars_of_uint. induction u; cbn; try reflexivity; now f_equal.
Qed.

Lemma length_chars (s : string) :
  List.length (list_ascii_of_string s) = String.length s.
Proof. induction s; cbn; [reflexivity|now f_equal]. Qed.

Lemma lstrip_keeps (l : list ascii) :
  Forall (fun c => is_space c = false) l -> lstrip l = l.
Proof. intros H. destruct H as [|c l Hc _]; cbn; [reflexivity|now rewrite Hc]. Qed.

Lemma rstrip_keeps (l : list ascii) :
  Forall (fun c => is_space c = false) l -> rstrip l = l.
Proof.
  intros H. unfold rstrip. rewrite lstrip_keeps.
  - apply rev_involutive.
  - apply Forall_rev. exact H.
Qed.

Lemma digits_not_space (l : list ascii) :
  Forall (fun c => is_digit c = true) l ->
  Forall (fun c => is_space c = false) l.
Proof.
  intros H. eapply Forall_impl; [|exact H]. intros c Hc.
  apply (digit_facts c Hc).
Qed.

Lemma int_unsigned_chars (u : Decimal.uint) :
  u <> Decimal.Nil ->
  (Decimal.nb_digits u <= 4300)%nat ->
  int_unsigned (chars_of_uint u) = Ok (Z.of_uint u).
Proof.
  intros Hnil Hlen. unfold int_unsigned.
  pose proof (chars_of_uint_digits u) as Hd.
  pose proof (int_digits_chars u) as Hi.
  destruct (chars_of_uint u) as [|c l] eqn:E.
  - destruct u; try discriminate E. now elim Hnil.
  - pose proof (Forall_inv Hd) as Hc. cbv beta in Hc. rewrite Hc, Hi.
    unfold int_max_str_digits.
    replace (Z.of_nat (Decimal.nb_digits u) <=? 4300) with true
      by (symmetry; apply Z.leb_le; lia).
    reflexivity.
Qed.

Lemma string_of_uint_nonnil (u : Decimal.uint) :
  u <> Decimal.Nil -> NilZero.string_of_uint u = NilEmpty.string_of_uint u.
Proof. destruct u; intros H; try reflexivity. now elim H. Qed.

Lemma to_int_digits (n : Z) :
  exists u, u <> Decimal.Nil
            /\ (Z.to_int n = Decimal.Pos u \/ Z.to_int n = Decimal.Neg u).
Proof.
  destruct n as [|p|p]; cbn.
  - exists (Decimal.D0 Decimal.Nil). split; [discriminate|now left].
  - exists (Pos.to_uint p). split; [apply Unsigned.to_uint_nonnil|now left].
  - exists (Pos.to_uint p). split; [apply Unsigned.to_uint_nonnil|now right].
Qed.

(** [int(str(n))] is [n], for every integer whose text fits the digit
    limit. *)
Lemma int_str (n : Z) :
  (String.length (Py.str n) <= 4300)%nat -> Py.int (Py.str n) = Ok n.
Proof.
  intros Hlen. pose proof (DecimalZ.of_to n) as Hof.
  unfold Py.str in *. destruct (to_int_digits n) as (u & Hnil & [E|E]);
    rewrite E in *; cbn [NilZero.string_of_int Z.of_int] in *;
    rewrite (string_of_uint_nonnil u Hnil) in *.
  - unfold Py.int. fold (chars_of_uint u).
    pose proof (chars_of_uint_digits u) as Hd.
    rewrite (lstrip_keeps _ (digits_not_space _ Hd)).
    rewrite (rstrip_keeps _ (digits_not_space _ Hd)).
    assert (Hu : int_unsigned (chars_of_uint u) = Ok (Z.of_uint u)).
    { apply int_unsigned_chars; [exact Hnil|].
      rewrite nb_digits_chars. unfold chars_of_uint.
      rewrite length_chars. exact Hlen. }
    destruct (chars_of_uint u) as [|c l] eqn:Ec.
    + cbn in Hu. discriminate Hu.
    + pose proof (Forall_inv Hd) as Hc. cbv beta in Hc.
      destruct (digit_facts c Hc) as (_ & _ & Hp & Hm).
      rewrite Hp, Hm, Hu, Hof. reflexivity.
  - cbn [String.length] in Hlen.
    unfold Py.int. cbn [list_ascii_of_string]. fold (chars_of_uint u).
    pose proof (chars_of_uint_digits u) as Hd.
    assert (Hs : Forall (fun c => is_space c = false)
                        ("-"%char :: chars_of_uint u)).
    { constructor; [reflexivity|apply digits_not_space, Hd]. }
    rewrite (lstrip_keeps _ Hs), (rstrip_keeps _ Hs).
    change (Ascii.eqb "-" "+") with false.
    change (Ascii.eqb "-" "-") with true. cbv iota.
    rewrite int_unsigned_chars.
    + cbn [bind]. rewrite Hof. reflexivity.
    + exact Hnil.
    + rewrite nb_digits_chars. unfold chars_of_uint.
      rewrite length_chars. lia.
Qed.

(** ** The encoder *)

Lemma float32_of_exact (z : Z) : float32_exact z -> Np.float32 z = z.
Proof.
  unfold float32_exact, Np.float32. intros H.
  destruct (Z.leb_spec (Z.abs z) (2 ^ 24)); [reflexivity|lia].
Qed.

Lemma map_float32_exact (l : list Z) :
  Forall float32_exact l -> map Np.float32 l = l.
Proof.
  induction 1 as [|z l Hz _ IH]; cbn; [reflexivity|].
  now rewrite (float32_of_exact z Hz), IH.
Qed.

Lemma list_index_split (prefix answer : list Z) (code : Z) :
  ~ In code prefix ->
  list_index (prefix ++ code :: answer) code = Ok (List.length prefix).
Proof.
  induction prefix as [|y prefix IH]; intros Hnot; cbn.
  - now rewrite Z.eqb_refl.
  - destruct (Z.eqb_spec y code) as [E|_].
    + elim Hnot. now left.
    + rewrite IH; [reflexivity|]. intros Hin. apply Hnot. now right.
Qed.

Lemma firstn_split (prefix rest : list Z) :
  firstn (List.length prefix) (prefix ++ rest) = prefix.
Proof. induction prefix; cbn; [now destruct rest|now f_equal]. Qed.

Lemma skipn_split (prefix answer : list Z) (code : Z) :
  skipn (S (List.length prefix)) (prefix ++ code :: answer) = answer.
Proof. induction prefix; cbn; [reflexivity|assumption]. Qed.

(** The [while] loop pads up to the length of the input and no further;
    with fuel [n] it runs to its end. *)
Lemma while_append_pads (fuel n : nat) (code : Z) (out : list Z) :
  (n - List.length out <= fuel)%nat ->
  while_append fuel out n code
  = (out ++ repeat code (n - List.length out))%list.
Proof.
  revert out. induction fuel as [|fuel IH]; intros out Hfuel; cbn [while_append].
  - replace (n - List.length out)%nat with O by lia. cbn. now rewrite List.app_nil_r.
  - destruct (Nat.ltb_spec (List.length out) n) as [Hlt|Hge].
    + rewrite IH by (rewrite List.length_app; cbn; lia).
      rewrite List.length_app. cbn [List.length].
      replace (n - List.length out)%nat
        with (S (n - (List.length out + 1)))%nat by lia.
      cbn [repeat]. now rewrite <- List.app_assoc.
    + replace (n - List.length out)%nat with O by lia. cbn. now rewrite List.app_nil_r.
Qed.

Lemma where_set_zeros (mask : list bool) :
  Np.where_set (repeat 0 (List.length mask)) mask 1 =
  map (fun b : bool => if b then 1 else 0) mask.
Proof. induction mask as [|b mask IH]; cbn; [reflexivity|now rewrite IH]. Qed.

Lemma map_const_seq (start n : nat) :
  map (fun _ : nat => 0) (seq start n) = repeat 0 n.
Proof. revert start. induction n; intros; cbn; [reflexivity|now f_equal]. Qed.

Lemma unit_vector_set (n k : nat) :
  (k < n)%nat -> Np.list_set (repeat 0 n) k 1 = unit_vector k n.
Proof.
  unfold unit_vector. revert k. induction n as [|n IH]; intros k Hk; [lia|].
  cbn [repeat seq map]. destruct k as [|k]; cbn [Np.list_set Nat.eqb].
  - f_equal. rewrite <- seq_shift, map_map. cbn [Nat.eqb].
    symmetry. apply map_const_seq.
  - f_equal. rewrite IH by lia. rewrite <- seq_shift, map_map. reflexivity.
Qed.

(** [onehot] on an index that numpy accepts: the row has its 1 at the
    index, counted from the end when the index is negative. *)
Lemma onehot_indexable (index size : Z) :
  indexable size index -> onehot index size = Ok (one_hot_row size index).
Proof.
  unfold indexable, onehot, one_hot_row, Np.zeros, Np.setitem. intros H.
  destruct (Z.ltb_spec size 0); [lia|]. cbn [bind].
  rewrite repeat_length, Z2Nat.id by lia.
  destruct (Z.ltb_spec index (- size)); [lia|].
  destruct (Z.leb_spec size index); [lia|]. cbn [orb].
  f_equal.
  replace (if index <? 0 then index + size else index) with (index mod size).
  - apply unit_vector_set. apply Z2Nat.inj_lt; try lia.
    + apply Z.mod_pos_bound. lia.
    + apply Z.mod_pos_bound. lia.
  - destruct (Z.ltb_spec index 0).
    + symmetry. apply Z.mod_unique with (q := -1); lia.
    + apply Z.mod_small. lia.
Qed.

(** [onehot] on any other index, for a size that [np.zeros] accepts: the
    indices from 2^63 to 2^64 - 1 apart, an [IndexError]. *)
Lemma onehot_not_indexable (index size : Z) :
  0 <= size -> ~ indexable size index ->
  index < 2 ^ 63 \/ 2 ^ 64 <= index ->
  onehot index size = Raise IndexError.
Proof.
  unfold indexable, onehot, Np.zeros, Np.setitem. intros Hs H Hfit.
  destruct (Z.ltb_spec size 0); [lia|]. cbn [bind].
  rewrite repeat_length, Z2Nat.id by lia.
  replace ((2 ^ 63 <=? index) && (index <? 2 ^ 64)) with false.
  2:{ symmetry. apply andb_false_iff.
      destruct Hfit; [left; apply Z.leb_gt|right; apply Z.ltb_ge]; lia. }
  destruct (Z.ltb_spec index (- size)); [reflexivity|].
  destruct (Z.leb_spec size index); [reflexivity|]. lia.
Qed.

(** [onehot] on an index from 2^63 to 2^64 - 1 that lies outside the
    vector. *)
Lemma onehot_overflow (index size : Z) :
  0 <= size -> ~ indexable size index ->
  2 ^ 63 <= index < 2 ^ 64 ->
  onehot index size = Raise OverflowError.
Proof.
  unfold indexable, onehot, Np.zeros, Np.setitem. intros Hs H Hw.
  destruct (Z.ltb_spec size 0); [lia|]. cbn [bind].
  rewrite repeat_length, Z2Nat.id by lia.
  replace ((2 ^ 63 <=? index) && (index <? 2 ^ 64)) with true.
  2:{ symmetry. apply andb_true_iff.
      split; [apply Z.leb_le|apply Z.ltb_lt]; lia. }
  destruct (Z.ltb_spec index (- size)); [reflexivity|].
  destruct (Z.leb_spec size index); [reflexivity|]. lia.
Qed.

Lemma comprehension_onehot_ok (size : Z) (l : list Z) :
  Forall (indexable size) l ->
  comprehension (fun c => onehot c size) l = Ok (map (one_hot_row size) l).
Proof.
  induction 1 as [|c l Hc _ IH]; cbn; [reflexivity|].
  now rewrite (onehot_indexable c size Hc), IH.
Qed.

Lemma indexable_dec (size c : Z) : {indexable size c} + {~ indexable size c}.
Proof.
  unfold indexable.
  destruct (Z_le_dec (- size) c), (Z_lt_dec c size); (left; lia) || (right; lia).
Qed.

Lemma float32_exact_fits (c : Z) : float32_exact c -> c < 2 ^ 63.
Proof. unfold float32_exact. lia. Qed.

Lemma comprehension_onehot_fails (size : Z) (l : list Z) :
  0 <= size -> Forall float32_exact l ->
  Exists (fun c => ~ indexable size c) l ->
  comprehension (fun c => onehot c size) l = Raise IndexError.
Proof.
  intros Hs Hex. induction 1 as [c l Hc|c l _ IH]; cbn.
  - rewrite (onehot_not_indexable c size Hs Hc); [reflexivity|].
    left. apply float32_exact_fits. now inversion Hex.
  - rewrite IH by now inversion Hex.
    destruct (indexable_dec size c) as [Hin|Hout].
    + now rewrite (onehot_indexable c size Hin).
    + rewrite (onehot_not_indexable c size Hs Hout); [reflexivity|].
      left. apply float32_exact_fits. now inversion Hex.
Qed.

Lemma comprehension_onehot_cases (size : Z) (l : list Z) :
  0 <= size -> Forall float32_exact l ->
  (Forall (indexable size) l
   /\ comprehension (fun c => onehot c size) l = Ok (map (one_hot_row size) l))
  \/ comprehension (fun c => onehot c size) l = Raise IndexError.
Proof.
  intros Hs Hex.
  destruct (Forall_Exists_dec (indexable size) (indexable_dec size) l) as [H|H].
  - left. split; [exact H|now apply comprehension_onehot_ok].
  - right. now apply comprehension_onehot_fails.
Qed.

(** A vector returned by [onehot] is the one-hot row of an index inside. *)
Lemma onehot_returns (index size : Z) (vec : list Z) :
  onehot index size = Ok vec ->
  indexable size index /\ vec = one_hot_row size index.
Proof.
  intros H. destruct (indexable_dec size index) as [Hin|Hout].
  - rewrite (onehot_indexable index size Hin) in H. now injection H as <-.
  - exfalso. unfold onehot, Np.zeros, Np.setitem in H. unfold indexable in Hout.
    destruct (Z.ltb_spec size 0); [discriminate H|]. cbn [bind] in H.
    rewrite repeat_length, Z2Nat.id in H by lia.
    destruct (Z.ltb_spec index (- size)); cbn [orb] in H.
    + destruct (_ && _) in H; discriminate H.
    + destruct (Z.leb_spec size index); [|lia].
      destruct (_ && _) in H; discriminate H.
Qed.

Lemma comprehension_onehot_returns (size : Z) (l : list Z) (rows : list (list Z)) :
  comprehension (fun c => onehot c size) l = Ok rows ->
  Forall (indexable size) l /\ rows = map (one_hot_row size) l.
Proof.
  revert rows. induction l as [|c l IH]; intros rows H; cbn in H.
  - injection H as <-. split; [constructor|reflexivity].
  - destruct (onehot c size) as [v| |] eqn:E; cbn [bind] in H; try discriminate H.
    destruct (comprehension _ l) as [vs| |] eqn:El; cbn [bind] in H;
      try discriminate H.
    injection H as <-. destruct (onehot_returns c size v E) as [Hc ->].
    destruct (IH vs eq_refl) as [Hl ->]. split; [now constructor|reflexivity].
Qed.

(** *** [prepare_sample] on a sample split at its first separator *)

Section PrepareSample.

Variables (prefix answer : list Z) (code size : Z).
Hypothesis first_separator : ~ In code prefix.

Let sample : list Z := (prefix ++ code :: answer)%list.
Let T : nat := List.length prefix.

Lemma padded_answer_length :
  List.length (padded_answer T answer code) = Nat.max T (List.length answer).
Proof.
  unfold padded_answer. rewrite List.length_app, repeat_length. lia.
Qed.

(** The statements of lines 61-70, up to the assignment through the mask. *)
Lemma prepare_sample_to_mask :
  prepare_sample sample code size =
  bind (Np.setitem_mask (repeat 0 T)
          (map (fun x => negb (x =? Np.float32 code))
               (map Np.float32 (padded_answer T answer code))) 1)
    (fun weights_vec =>
     bind (comprehension (fun c => onehot c size) (map Np.float32 prefix))
       (fun input_vec =>
     bind (comprehension (fun c => onehot c size)
             (map Np.float32 (padded_answer T answer code)))
       (fun output_vec =>
     bind (Np.reshape_rows input_vec size) (fun input3 =>
     bind (Np.reshape_rows output_vec size) (fun output3 =>
     Ok (input3, output3, Z.of_nat T, Np.reshape_column weights_vec)))))).
Proof.
  unfold prepare_sample, sample, T.
  rewrite (list_index_split prefix answer code first_separator).
  cbn [bind]. rewrite firstn_split, skipn_split, length_map.
  rewrite while_append_pads by lia. reflexivity.
Qed.

(** An answer longer than the prefix stops the encoder at line 70. *)
Lemma prepare_sample_mask_mismatch :
  (T < List.length answer)%nat ->
  prepare_sample sample code size = Raise IndexError.
Proof.
  intros Hlong. rewrite prepare_sample_to_mask. unfold Np.setitem_mask.
  rewrite repeat_length, !length_map, padded_answer_length.
  destruct (Nat.eqb_spec T (Nat.max T (List.length answer))); [lia|reflexivity].
Qed.

Hypothesis answer_fits : (List.length answer <= T)%nat.
Hypothesis size_positive : 0 < size.
Hypothesis ids_exact : Forall float32_exact sample.

Lemma padded_answer_exact : Forall float32_exact (padded_answer T answer code).
Proof.
  unfold sample in ids_exact. apply Forall_app in ids_exact as [_ H].
  unfold padded_answer. apply Forall_app. split.
  - now inversion H.
  - apply Forall_forall. intros x Hx. apply repeat_spec in Hx. subst x.
    now inversion H.
Qed.

Lemma weights_of_padded :
  map (weight_of code) (padded_answer T answer code) =
  (map (weight_of code) answer ++ repeat 0 (T - List.length answer))%list.
Proof.
  unfold padded_answer. rewrite map_app. f_equal.
  induction (T - List.length answer)%nat as [|n IH]; cbn; [reflexivity|].
  unfold weight_of at 1. now rewrite Z.eqb_refl, IH.
Qed.

(** With ids that index the vocabulary, the encoder returns the one-hot
    rows of the prefix and of the padded answer and the weights of the
    padded answer. *)
Lemma prepare_sample_ok :
  Forall (indexable size) (prefix ++ padded_answer T answer code) ->
  prepare_sample sample code size =
  Ok ([map (one_hot_row size) prefix],
      [map (one_hot_row size) (padded_answer T answer code)],
      Z.of_nat T,
      Np.reshape_column
        (map (weight_of code) answer ++ repeat 0 (T - List.length answer))).
Proof.
  intros Hids. apply Forall_app in Hids as [Hp Ha].
  rewrite prepare_sample_to_mask.
  assert (Hpe : Forall float32_exact prefix).
  { unfold sample in ids_exact. now apply Forall_app in ids_exact as [H _]. }
  assert (Hce : float32_exact code).
  { unfold sample in ids_exact. apply Forall_app in ids_exact as [_ H].
    now inversion H. }
  rewrite (map_float32_exact _ Hpe), (map_float32_exact _ padded_answer_exact).
  rewrite (float32_of_exact _ Hce).
  unfold Np.setitem_mask.
  rewrite repeat_length, length_map, padded_answer_length.
  replace (Nat.max T (List.length answer)) with T by lia.
  rewrite Nat.eqb_refl. cbn [bind].
  rewrite (comprehension_onehot_ok size prefix Hp). cbn [bind].
  rewrite (comprehension_onehot_ok size _ Ha). cbn [bind].
  unfold Np.reshape_rows. destruct (Z.leb_spec size 0); [lia|]. cbn [bind].
  do 3 f_equal. rewrite <- weights_of_padded.
  replace T with
    (List.length (map (fun x => negb (x =? code)) (padded_answer T answer code)))
    at 1 by (rewrite length_map, padded_answer_length; lia).
  rewrite where_set_zeros, map_map. apply map_ext. intros a.
  unfold weight_of. now destruct (a =? code).
Qed.

(** With an id that does not index the vocabulary, the encoder stops in
    one of the two comprehensions of lines 71-72. *)
Lemma prepare_sample_out_of_range :
  Exists (fun c => ~ indexable size c) (prefix ++ padded_answer T answer code) ->
  prepare_sample sample code size = Raise IndexError.
Proof.
  intros Hex. rewrite prepare_sample_to_mask.
  assert (Hpe : Forall float32_exact prefix).
  { unfold sample in ids_exact. now apply Forall_app in ids_exact as [H _]. }
  rewrite (map_float32_exact _ Hpe), (map_float32_exact _ padded_answer_exact).
  unfold Np.setitem_mask.
  rewrite repeat_length, !length_map, padded_answer_length.
  replace (Nat.max T (List.length answer)) with T by lia.
  rewrite Nat.eqb_refl. cbn [bind].
  apply Exists_app in Hex as [Hex|Hex].
  - now rewrite (comprehension_onehot_fails size prefix)
      by (lia || assumption).
  - destruct (comprehension_onehot_cases size prefix) as [[_ E]|E];
      try lia; try assumption; rewrite E; cbn [bind]; [|reflexivity].
    now rewrite (comprehension_onehot_fails size _)
      by (lia || assumption || apply padded_answer_exact).
Qed.

End PrepareSample.

(** *** Answers longer than the prefix *)

(** C6, as the code has it. For every sample whose answer (what follows the
    first separator) is longer than the prefix of length T, and whose ids
    are finite as [float32] values, [prepare_sample] returns no tensors: the
    boolean mask has the length of the answer, the weights vector has
    length T, and the assignment of line 70 raises [IndexError]. No part of
    such a sample reaches the model. *)
Theorem prepare_sample_long_answer_raises
  (prefix answer : list Z) (code size : Z) :
  ~ In code prefix ->
  (List.length prefix < List.length answer)%nat ->
  Forall float32_finite (prefix ++ code :: answer) ->
  prepare_sample (prefix ++ code :: answer) code size = Raise IndexError.
Proof.
  intros Hsep Hlong _. now apply prepare_sample_mask_mismatch.
Qed.

Lemma prepare_sample_long_answer_raises_witness :
  prepare_sample ([3] ++ 0 :: [9; 8]) 0 10 = Raise IndexError.
Proof.
  apply (prepare_sample_long_answer_raises [3] [9; 8] 0 10).
  - cbn. intros [H|[]]. discriminate H.
  - cbn. lia.
  - repeat constructor; unfold float32_finite; cbn; lia.
Defined.

(** C6 as stated fails: the sample [3, SEP, 9, 8] with SEP = 0 has a prefix
    of length 1 and an answer of length 2, and the encoder returns no
    tensors for it. *)
Lemma prepare_sample_long_answer_counterexample :
  ~ (exists input target seq_len weights,
        prepare_sample [3; 0; 9; 8] 0 10
        = Ok (input, target, seq_len, weights)).
Proof. intros (i & t & n & w & H). vm_compute in H. discriminate H. Qed.

(** *** The loss mask *)

Lemma sum_weights_column (l : list Z) :
  tensor_sum (Np.reshape_column l) = fold_right Z.add 0 l.
Proof.
  unfold tensor_sum, Np.reshape_column. cbn [List.concat]. rewrite List.app_nil_r.
  induction l as [|x l IH]; cbn; [reflexivity|]. now rewrite IH.
Qed.

Lemma sum_weights_answer (code : Z) (answer : list Z) (n : nat) :
  fold_right Z.add 0 (map (weight_of code) answer ++ repeat 0 n)
  = Z.of_nat (List.length (filter (fun a => negb (a =? code)) answer)).
Proof.
  induction answer as [|a answer IH]; cbn [map app filter fold_right].
  - induction n as [|n IHn]; cbn; [reflexivity|exact IHn].
  - rewrite IH. unfold weight_of. destruct (a =? code); cbn [negb List.length]; lia.
Qed.

Lemma filter_keeps_all (code : Z) (answer : list Z) :
  ~ In code answer -> filter (fun a => negb (a =? code)) answer = answer.
Proof.
  induction answer as [|a answer IH]; intros H; cbn; [reflexivity|].
  destruct (Z.eqb_spec a code) as [E|_]; cbn.
  - elim H. now left.
  - f_equal. apply IH. intros Hin. apply H. now right.
Qed.

(** C7, as the code has it. For every sample split at its first separator
    whose answer is no longer than the prefix and whose ids (separator
    included) index a vocabulary of at most 2^24 words, [prepare_sample]
    returns weights that are 1 at every answer position whose id differs
    from the separator, 0 at every answer position holding the separator
    and 0 at every padded position. Their sum is the number of answer ids
    that differ from the separator; it is the length of the answer when the
    answer contains no separator. *)
Theorem prepare_sample_weights
  (prefix answer : list Z) (code size : Z) :
  ~ In code prefix ->
  (List.length answer <= List.length prefix)%nat ->
  0 < size <= 2 ^ 24 ->
  Forall (indexable size) (prefix ++ code :: answer) ->
  let weights :=
    Np.reshape_column
      (map (weight_of code) answer
       ++ repeat 0 (List.length prefix - List.length answer)) in
  (exists input target,
      prepare_sample (prefix ++ code :: answer) code size
      = Ok (input, target, Z.of_nat (List.length prefix), weights))
  /\ tensor_sum weights
     = Z.of_nat (List.length (filter (fun a => negb (a =? code)) answer))
  /\ (~ In code answer -> tensor_sum weights = Z.of_nat (List.length answer)).
Proof.
  intros Hsep Hfit Hsize Hids weights.
  assert (Hexact : Forall float32_exact (prefix ++ code :: answer)).
  { eapply Forall_impl; [|exact Hids]. unfold indexable, float32_exact.
    intros c Hc. lia. }
  assert (Hpad : Forall (indexable size)
                   (prefix ++ padded_answer (List.length prefix) answer code)).
  { apply Forall_app in Hids as [Hp Ha]. apply Forall_app. split; [exact Hp|].
    unfold padded_answer. apply Forall_app. split; [now inversion Ha|].
    apply Forall_forall. intros x Hx. apply repeat_spec in Hx. subst x.
    now inversion Ha. }
  assert (Hsum : tensor_sum weights
                 = Z.of_nat (List.length (filter (fun a => negb (a =? code)) answer))).
  { unfold weights. rewrite sum_weights_column. apply sum_weights_answer. }
  split; [|split].
  - eexists. eexists.
    apply (prepare_sample_ok prefix answer code size Hsep Hfit); try lia; assumption.
  - exact Hsum.
  - intros Hno. rewrite Hsum. now rewrite filter_keeps_all.
Qed.

Lemma prepare_sample_weights_witness :
  (exists input target,
      prepare_sample ([3; 7; 7; 9] ++ 0 :: [9; 0]) 0 10
      = Ok (input, target, 4, [[ [1]; [0]; [0]; [0] ]]))
  /\ tensor_sum [[ [1]; [0]; [0]; [0] ]] = 1.
Proof.
  destruct (prepare_sample_weights [3; 7; 7; 9] [9; 0] 0 10) as (H1 & H2 & _).
  - cbn. intros [H|[H|[H|[H|[]]]]]; discriminate H.
  - cbn. lia.
  - cbn. lia.
  - repeat constructor; unfold indexable; cbn; lia.
  - split; [exact H1|exact H2].
Defined.

(** C7 as stated fails on the sum: for the sample [3,7,7,9,SEP,9,SEP,5]
    with SEP = 0 the answer [9, SEP, 5] has length 3 and T is 4, but the
    weights [1,0,1,0] sum to 2. *)
Lemma prepare_sample_weights_counterexample :
  exists input target,
    prepare_sample [3; 7; 7; 9; 0; 9; 0; 5] 0 10
    = Ok (input, target, 4, [[ [1]; [0]; [1]; [0] ]])
    /\ tensor_sum [[ [1]; [0]; [1]; [0] ]]
       <> Z.min (Z.of_nat (List.length [9; 0; 5])) 4.
Proof.
  do 2 eexists. split; [vm_compute; reflexivity|]. vm_compute. discriminate.
Qed.

(** *** One-hot expansion and the vocabulary range *)

(** C8, as the code has it. For every sample split at its first separator
    whose answer is no longer than the prefix, with ids (the separator's
    included) of magnitude at most 2^24, all of which [float32] holds
    exactly, and a positive vocabulary size V: when every id of the
    prefix and of the padded answer lies in [-V, V), each is expanded to
    the one-hot row of width V for that id modulo V (a negative id c marks
    position c + V); when some id lies outside [-V, V), [prepare_sample]
    raises [IndexError]. *)
Theorem prepare_sample_one_hot
  (prefix answer : list Z) (code size : Z) :
  ~ In code prefix ->
  (List.length answer <= List.length prefix)%nat ->
  0 < size ->
  Forall float32_exact (prefix ++ code :: answer) ->
  let target_ids := padded_answer (List.length prefix) answer code in
  (Forall (indexable size) (prefix ++ target_ids) ->
   exists weights,
     prepare_sample (prefix ++ code :: answer) code size
     = Ok ([map (one_hot_row size) prefix],
           [map (one_hot_row size) target_ids],
           Z.of_nat (List.length prefix), weights))
  /\ (Exists (fun c => ~ indexable size c) (prefix ++ target_ids) ->
      prepare_sample (prefix ++ code :: answer) code size = Raise IndexError).
Proof.
  intros Hsep Hfit Hsize Hexact target_ids. split.
  - intros Hids. eexists.
    now apply (prepare_sample_ok prefix answer code size).
  - intros Hout.
    now apply (prepare_sample_out_of_range prefix answer code size).
Qed.

Lemma prepare_sample_one_hot_witness :
  (exists weights,
      prepare_sample ([3; -1] ++ 0 :: [2]) 0 4
      = Ok ([[ [0; 0; 0; 1]; [0; 0; 0; 1] ]],
            [[ [0; 0; 1; 0]; [1; 0; 0; 0] ]], 2, weights))
  /\ prepare_sample ([3; 4] ++ 0 :: [2]) 0 4 = Raise IndexError.
Proof.
  split.
  - apply (prepare_sample_one_hot [3; -1] [2] 0 4).
    + cbn. intros [H|[H|[]]]; discriminate H.
    + cbn. lia.
    + lia.
    + repeat constructor; unfold float32_exact; cbn; lia.
    + repeat constructor; unfold indexable; cbn; lia.
  - apply (prepare_sample_one_hot [3; 4] [2] 0 4).
    + cbn. intros [H|[H|[]]]; discriminate H.
    + cbn. lia.
    + lia.
    + repeat constructor; unfold float32_exact; cbn; lia.
    + apply Exists_cons_tl, Exists_cons_hd. unfold indexable. lia.
Defined.

(** C8 as stated fails for negative ids: the id -1 is outside [0, 10), yet
    [onehot] returns a vector for it and [prepare_sample] succeeds. *)
Lemma prepare_sample_one_hot_counterexample :
  onehot (-1) 10 = Ok [0; 0; 0; 0; 0; 0; 0; 0; 0; 1]
  /\ prepare_sample [-1; 0] 0 10
     = Ok ([[ [0; 0; 0; 0; 0; 0; 0; 0; 0; 1] ]],
           [[ [1; 0; 0; 0; 0; 0; 0; 0; 0; 0] ]], 1, [[ [0] ]]).
Proof. split; reflexivity. Qed.

(** ** The training loop *)

Lemma dict_get_cases (d : list (string * Z)) (key : string) :
  (exists v, dict_get d key = Ok v) \/ dict_get d key = Raise KeyError.
Proof.
  induction d as [|[k v] d IH]; cbn; [now right|].
  destruct (String.eqb k key); [left; now exists v|exact IH].
Qed.

(** The call of line 210 passes four arguments to [prepare_sample]. *)
Lemma call_prepare_sample_four (sample : list Z) (c v : Z) (d : list (string * Z)) :
  call_prepare_sample [ArgList sample; ArgInt c; ArgInt v; ArgDict d]
  = Raise TypeError.
Proof. reflexivity. Qed.

Ltac stopped_here :=
  do 2 eexists; split; [reflexivity|]; do 5 (split; [reflexivity|]);
  let H := fresh in
  intros H; first [discriminate H | split; [discriminate|reflexivity]].

(** The [try] block never runs to its end: it stops with an exception at
    the call of [prepare_sample] at the latest, before the model is run and
    before anything is recorded, saved or reported. Without a pending
    interrupt the exception is not [KeyboardInterrupt] and the iteration has
    been announced. *)
Lemma try_block_stops (w : world) (i end_ : Z) (st : state) :
  exists e st',
    try_block w i end_ st = (Raise e, st')
    /\ session_runs st' = session_runs st
    /\ last_100_losses st' = last_100_losses st
    /\ reports st' = reports st
    /\ saved st' = saved st
    /\ restored st' = restored st
    /\ (pending_interrupt st = None ->
        e <> KeyboardInterrupt
        /\ iterations_printed st' = (iterations_printed st ++ [(i, end_)])%list).
Proof.
  destruct st as [p d tc ip sr ll stt avg ac rp rs sv].
  unfold try_block, mbind, tick, print_iteration, random_sample_name,
    json_load, lift.
  destruct (dict_get_cases (lexicon_dict w) "=") as [[v Hv]|Hv].
  all: destruct p as [[|[|[|[|k]]]]|]; cbn; try stopped_here.
  all: destruct (data_files w) as [|name names]; cbn; try stopped_here.
  all: destruct (train_file w _) as [[| | |failure]|sample]; cbn;
    try stopped_here.
  all: rewrite Hv; cbn; stopped_here.
Qed.

Lemma main_unfold (w : world) :
  main w =
  match main_startup w (initial_state w) with
  | (Ok se, st) => for_loop w (range (fst se) (snd se + 1)) (snd se) st
  | (Raise e, st) => (Raise e, st)
  | (Exit n, st) => (Exit n, st)
  end.
Proof. reflexivity. Qed.

Lemma range_cons (a b : Z) : a < b -> range a b = a :: range (a + 1) b.
Proof.
  intros H. unfold range.
  replace (Z.to_nat (b - a)) with (S (Z.to_nat (b - (a + 1)))) by lia.
  reflexivity.
Qed.

(** What the handler does with the state in which the interrupt surfaced. *)
Lemma iteration_interrupted (w : world) (i end_ : Z) (st st1 : state) :
  try_block w i end_ st = (Raise KeyboardInterrupt, st1) ->
  exists st',
    iteration w i end_ st = (Exit 0, st')
    /\ saved st' = (saved st1 ++ [("step-" ++ Py.str i)%string])%list
    /\ session_runs st' = session_runs st1
    /\ iterations_printed st' = iterations_printed st1.
Proof.
  intros H. unfold iteration. rewrite H.
  unfold interrupt_handler, mbind, ncomputer_save, sys_exit.
  eexists. split; [reflexivity|]. cbn. repeat split.
Qed.

(** An iteration never hands over to the next one. *)
Lemma for_loop_first (w : world) (i end_ : Z) (steps : list Z) (st : state) :
  for_loop w (i :: steps) end_ st = iteration w i end_ st.
Proof.
  cbn [for_loop]. unfold mbind.
  destruct (try_block_stops w i end_ st) as (e & st1 & H & _).
  unfold iteration. rewrite H. destruct e; reflexivity.
Qed.

Lemma iteration_uninterrupted (w : world) (i end_ : Z) (st : state) :
  pending_interrupt st = None ->
  exists e st',
    iteration w i end_ st = (Raise e, st')
    /\ session_runs st' = session_runs st
    /\ last_100_losses st' = last_100_losses st
    /\ saved st' = saved st
    /\ restored st' = restored st
    /\ iterations_printed st' = (iterations_printed st ++ [(i, end_)])%list.
Proof.
  intros Hp.
  destruct (try_block_stops w i end_ st)
    as (e & st1 & H & Hr & Hl & _ & Hs & Hre & Hn).
  destruct (Hn Hp) as [Hne Hip].
  exists e, st1. unfold iteration. rewrite H.
  destruct e; try (now elim Hne); repeat split; assumption.
Qed.

(** *** C1: the pipeline of one step *)

(** C1, on the code. Whatever the environment, the step and the state, the
    [try] block of an iteration ends with an exception: the call of line
    210 gives [prepare_sample] four arguments, so that no step gets as far
    as running the model or appending a loss. *)
Theorem try_block_never_completes (w : world) (i end_ : Z) (st : state) :
  exists e st',
    try_block w i end_ st = (Raise e, st')
    /\ session_runs st' = session_runs st
    /\ last_100_losses st' = last_100_losses st.
Proof.
  destruct (try_block_stops w i end_ st) as (e & st' & H & Hr & Hl & _).
  now exists e, st'.
Qed.

(** The run of the small installation: the first step draws and loads its
    sample and then stops with [TypeError]. *)
Example fresh_run_stops :
  fst (main fresh_world) = Raise TypeError
  /\ iterations_printed (snd (main fresh_world)) = [(0, 100000)]
  /\ draws (snd (main fresh_world)) = 1%nat
  /\ session_runs (snd (main fresh_world)) = []
  /\ last_100_losses (snd (main fresh_world)) = [].
Proof. vm_compute. repeat split. Qed.

(** *** C10: an interrupt during a step *)

(** C10. When a [KeyboardInterrupt] surfaces in the [try] block of step i,
    the iteration saves one checkpoint, named for step i, and exits with
    status 0; nothing else is added to the saved checkpoints, and the loop
    does not go on to another step. *)
Theorem interrupt_saves_current_step
  (w : world) (i end_ : Z) (steps : list Z) (st st1 : state) :
  try_block w i end_ st = (Raise KeyboardInterrupt, st1) ->
  exists st',
    for_loop w (i :: steps) end_ st = (Exit 0, st')
    /\ saved st' = (saved st ++ [("step-" ++ Py.str i)%string])%list.
Proof.
  intros H. rewrite for_loop_first.
  destruct (iteration_interrupted w i end_ st st1 H) as (st' & Hi & Hs & _).
  exists st'. split; [exact Hi|].
  destruct (try_block_stops w i end_ st) as (e & st2 & H2 & _ & _ & _ & Hsv & _).
  rewrite H in H2. injection H2 as _ <-. now rewrite Hs, Hsv.
Qed.

Lemma interrupt_saves_current_step_witness :
  exists st',
    for_loop interrupted_world [57; 58; 59] 100000
      (state_at_loop interrupted_world) = (Exit 0, st')
    /\ saved st' = (saved (state_at_loop interrupted_world)
                    ++ [("step-" ++ Py.str 57)%string])%list.
Proof.
  eapply (interrupt_saves_current_step interrupted_world 57 100000 [58; 59]).
  vm_compute. reflexivity.
Defined.

(** The whole run with the interrupt at step 57: status 0 and the single
    checkpoint step-57. *)
Example interrupted_run :
  fst (main interrupted_world) = Exit 0
  /\ saved (snd (main interrupted_world)) = ["step-57"%string]
  /\ iterations_printed (snd (main interrupted_world)) = [(57, 100000)].
Proof. vm_compute. repeat split. Qed.

(** ** Startup: options and resume *)

Lemma resume_from_directory_end (w : world) (st st' : state) (se : Z * Z) :
  resume_from_directory w st = (Ok (Some se), st') -> snd se = 100000.
Proof.
  unfold resume_from_directory, mbind, lift, ret, ncomputer_restore.
  destruct (ckpts_dir w) as [checkpoints|]; [|intros H; discriminate H].
  destruct (_ && _); [|intros H; discriminate H].
  destruct (checkpoint_numbers checkpoints) as [numbers|e|n];
    try (intros H; discriminate H).
  destruct (last_item (sort numbers)) as [latest|e|n];
    try (intros H; discriminate H).
  intros H. injection H as <- _. reflexivity.
Qed.

(** X10. The loop is always entered with [end] = 100000: neither
    [iterations] nor [start_step] is read after the options have been
    parsed, whatever the checkpoint directory and the named checkpoint. *)
Lemma main_startup_end (w : world) (st0 st : state) (se : Z * Z) :
  main_startup w st0 = (Ok se, st) -> snd se = 100000.
Proof.
  unfold main_startup. unfold mbind at 1. unfold lift at 1.
  destruct (read_options default_options (argv_options w)) as [o|e|n];
    try (intros H; discriminate H).
  unfold mbind at 1.
  destruct (from_checkpoint o) as [name|].
  - unfold mbind at 1, ncomputer_restore, ret, lift.
    unfold mbind, time, set_start_time, ret.
    destruct (Py.int (checkpoint_suffix name)) as [start|e|n];
      intros H; try discriminate H.
    injection H as <- _. reflexivity.
  - destruct (resume_from_directory w st0) as [[[se'|]|e|n] st1] eqn:E;
      try (intros H; discriminate H).
    + apply resume_from_directory_end in E.
      unfold mbind, time, set_start_time, ret.
      intros H. injection H as <- _. exact E.
    + unfold mbind, time, set_start_time, ret.
      intros H. injection H as <- _. reflexivity.
Qed.

Lemma resume_from_directory_logs (w : world) (st : state) :
  let st' := snd (resume_from_directory w st) in
  pending_interrupt st' = pending_interrupt st
  /\ iterations_printed st' = iterations_printed st
  /\ session_runs st' = session_runs st
  /\ last_100_losses st' = last_100_losses st
  /\ reports st' = reports st
  /\ saved st' = saved st.
Proof.
  unfold resume_from_directory, mbind, lift, ret, ncomputer_restore.
  destruct (ckpts_dir w) as [checkpoints|]; [|cbn; repeat split].
  destruct (_ && _); [|cbn; repeat split].
  destruct (checkpoint_numbers checkpoints) as [numbers| |]; cbn;
    [|repeat split..].
  destruct (last_item (sort numbers)); cbn; repeat split.
Qed.

(** The startup restores and reads the clock; it neither runs the model nor
    saves, reports or announces anything. *)
Lemma main_startup_logs (w : world) (st : state) :
  let st' := snd (main_startup w st) in
  pending_interrupt st' = pending_interrupt st
  /\ iterations_printed st' = iterations_printed st
  /\ session_runs st' = session_runs st
  /\ last_100_losses st' = last_100_losses st
  /\ reports st' = reports st
  /\ saved st' = saved st.
Proof.
  intros st'. subst st'.
  destruct (main_startup w st) as [out st'] eqn:E. cbn [snd].
  unfold main_startup in E. unfold mbind at 1 in E. unfold lift at 1 in E.
  destruct (read_options default_options (argv_options w)) as [o| |];
    [|injection E as _ <-; repeat split..].
  cbv beta iota in E. unfold mbind at 1 in E.
  destruct (from_checkpoint o) as [name|].
  - unfold mbind, ncomputer_restore, ret, lift, time, set_start_time in E.
    destruct (Py.int (checkpoint_suffix name));
      injection E as _ <-; cbn; repeat split.
  - pose proof (resume_from_directory_logs w st) as H. cbv zeta in H.
    destruct (resume_from_directory w st) as [[assigned| |] st1];
      cbn [snd] in H; [|injection E as _ <-; exact H..].
    unfold mbind, ret, lift, time, set_start_time in E.
    injection E as _ <-. cbn. exact H.
Qed.

(** With [start <= end] and no interrupt, the run announces the iteration
    [start] and ends in it. *)
Lemma main_first_iteration (w : world) (start end_ : Z) (st : state) :
  main_startup w (initial_state w) = (Ok (start, end_), st) ->
  start <= end_ ->
  interrupt_at w = None ->
  exists e st',
    main w = (Raise e, st') /\ iterations_printed st' = [(start, end_)].
Proof.
  intros Hstart Hle Hint.
  pose proof (main_startup_logs w (initial_state w)) as Hlogs.
  cbv zeta in Hlogs. rewrite Hstart in Hlogs. cbn [snd] in Hlogs.
  destruct Hlogs as (Hp & Hip & _).
  rewrite main_unfold, Hstart. cbn [fst snd].
  rewrite range_cons by lia. rewrite for_loop_first.
  destruct (iteration_uninterrupted w start end_ st)
    as (e & st' & Hi & _ & _ & _ & _ & Hprinted).
  { rewrite Hp. exact Hint. }
  exists e, st'. split; [exact Hi|]. rewrite Hprinted, Hip. reflexivity.
Qed.

(** With [start > end] the range is empty: the run ends where the startup
    left it. *)
Lemma main_empty_loop (w : world) (start end_ : Z) (st : state) :
  main_startup w (initial_state w) = (Ok (start, end_), st) ->
  end_ < start ->
  main w = (Ok tt, st).
Proof.
  intros Hstart Hlt. rewrite main_unfold, Hstart. cbn [fst snd].
  unfold range. replace (Z.to_nat (end_ + 1 - start)) with O by lia.
  reflexivity.
Qed.

(** *** C2: resuming from the checkpoint directory *)

(** C2, as the code has it. Without options and with step-50, step-120 and
    step-7 in the checkpoint directory, the scan yields 120, the checkpoint
    step-120 is restored, and the loop is entered at step 120: the first
    step executed is the one the checkpoint is named for, as with an
    explicitly named checkpoint. *)
Theorem resume_from_latest (w : world) :
  argv_options w = [] ->
  ckpts_dir w = Some ["step-50"%string; "step-120"%string; "step-7"%string] ->
  interrupt_at w = None ->
  bind (checkpoint_numbers ["step-50"%string; "step-120"%string; "step-7"%string])
       (fun numbers => last_item (sort numbers)) = Ok 120
  /\ exists st,
      main_startup w (initial_state w) = (Ok (120, 100000), st)
      /\ restored st = ["step-120"%string]
      /\ exists e st',
          main w = (Raise e, st')
          /\ iterations_printed st' = [(120, 100000)].
Proof.
  intros Hopts Hdir Hint. split; [reflexivity|].
  assert (Hstart :
    main_startup w (initial_state w) =
    (Ok (120, 100000),
     {| pending_interrupt := None; draws := 0; time_calls := 1;
        iterations_printed := []; session_runs := []; last_100_losses := [];
        start_time_100 := time_time w 0;
        avg_100_time := Np.float_of_int 0;
        avg_counter := 0; reports := []; restored := ["step-120"%string];
        saved := [] |})).
  { unfold main_startup, resume_from_directory, mbind, lift, initial_state.
    rewrite Hopts, Hdir, Hint. reflexivity. }
  eexists. split; [exact Hstart|]. split; [reflexivity|].
  rewrite main_unfold, Hstart. cbn [fst snd].
  rewrite range_cons by lia. rewrite for_loop_first.
  match goal with
  | |- context [iteration w 120 100000 ?s] =>
      destruct (iteration_uninterrupted w 120 100000 s eq_refl)
        as (e & st' & Hi & _ & _ & _ & _ & Hp)
  end.
  exists e, st'. split; [exact Hi|exact Hp].
Qed.

Lemma resume_from_latest_witness :
  exists st,
    main_startup resume_world (initial_state resume_world)
    = (Ok (120, 100000), st)
    /\ restored st = ["step-120"%string]
    /\ exists e st',
        main resume_world = (Raise e, st')
        /\ iterations_printed st' = [(120, 100000)].
Proof.
  apply (resume_from_latest resume_world); reflexivity.
Defined.

(** C2 as stated fails on the resume step: with step-50, step-120 and
    step-7 the first step executed is 120, not 121. *)
Lemma resume_from_latest_counterexample :
  hd_error (map fst (iterations_printed (snd (main resume_world)))) = Some 120
  /\ hd_error (map fst (iterations_printed (snd (main resume_world))))
     <> Some 121.
Proof. vm_compute. split; [reflexivity|discriminate]. Qed.

(** *** C3: the options that should bound the loop *)

(** C3, on the code. With [--iterations=5 --start=3] and no checkpoint, the
    two values are parsed into [iterations] and [start_step] and then left
    unused: the loop is entered at step 0 with [end] = 100000. *)
Theorem options_do_not_bound_the_loop :
  read_options default_options (argv_options bounded_world)
  = Ok {| from_checkpoint := None; iterations := 5; start_step := 3 |}
  /\ fst (main_startup bounded_world (initial_state bounded_world))
     = Ok (0, 100000)
  /\ iterations_printed (snd (main bounded_world)) = [(0, 100000)].
Proof. vm_compute. repeat split. Qed.

(** *** C4: the scan of the checkpoint directory *)

(** C4, on the code. The scan takes the text after the first hyphen of
    every entry, whatever precedes the hyphen: with step-5 and lr-999 in
    the directory the numbers are 5 and 999, the run asks for the
    checkpoint step-999 and enters the loop at step 999. With step-abc
    alone the list of numbers is empty and the startup ends with
    [IndexError]. *)
Theorem directory_scan_takes_unrelated_entries :
  checkpoint_numbers ["step-5"%string; "lr-999"%string] = Ok [5; 999]
  /\ main_startup stray_file_world (initial_state stray_file_world)
     = (Ok (999, 100000),
        {| pending_interrupt := None; draws := 0; time_calls := 1;
           iterations_printed := []; session_runs := []; last_100_losses := [];
           start_time_100 := Np.float_of_int 0;
           avg_100_time := Np.float_of_int 0; avg_counter := 0;
           reports := []; restored := ["step-999"%string]; saved := [] |})
  /\ checkpoint_numbers ["step-abc"%string] = Ok []
  /\ fst (main_startup malformed_entry_world (initial_state malformed_entry_world))
     = Raise IndexError.
Proof. vm_compute. repeat split. Qed.

(** *** C5: an explicitly named checkpoint *)



(** A named checkpoint beyond the last step: [--checkpoint=step-100001]
    restores it and ends the run without an iteration. *)
Example named_checkpoint_beyond_end :
  fst (main (small_world [("--checkpoint"%string, "step-100001"%string)]
               None None)) = Ok tt
  /\ restored (snd (main (small_world
                            [("--checkpoint"%string, "step-100001"%string)]
                            None None))) = ["step-100001"%string]
  /\ iterations_printed
       (snd (main (small_world [("--checkpoint"%string, "step-100001"%string)]
                     None None))) = [].
Proof. vm_compute. repeat split. Qed.


(* ================================================================== *)
(** * Part III. Further properties of the code                         *)
(* ================================================================== *)

(** ** [onehot] *)

Lemma unit_vector_length (k n : nat) : List.length (unit_vector k n) = n.
Proof. unfold unit_vector. now rewrite length_map, length_seq. Qed.

Lemma unit_vector_entries (k n : nat) :
  Forall (fun x => x = 0 \/ x = 1) (unit_vector k n).
Proof.
  unfold unit_vector. apply Forall_forall. intros x Hx.
  apply in_map_iff in Hx as (j & <- & _). destruct (Nat.eqb j k); auto.
Qed.

Lemma unit_vector_sum (k n : nat) :
  (k < n)%nat -> fold_right Z.add 0 (unit_vector k n) = 1.
Proof.
  revert k. induction n as [|n IH]; intros k Hk; [lia|].
  unfold unit_vector. cbn [seq map fold_right]. destruct k as [|k].
  - cbn [Nat.eqb]. rewrite <- seq_shift, map_map. cbn [Nat.eqb].
    rewrite map_const_seq.
    replace (fold_right Z.add 0 (repeat 0 n)) with 0; [reflexivity|].
    clear. induction n; cbn; [reflexivity|assumption].
  - cbn [Nat.eqb]. rewrite <- seq_shift, map_map. cbn [Nat.eqb].
    fold (unit_vector k n). rewrite IH by lia. reflexivity.
Qed.

Lemma nth_map_seq (f : nat -> Z) (start n j : nat) :
  (j < n)%nat -> nth j (map f (seq start n)) 0 = f (start + j)%nat.
Proof.
  revert start j. induction n as [|n IH]; intros start j Hj; [lia|].
  cbn [seq map]. destruct j as [|j]; cbn [nth].
  - now rewrite Nat.add_0_r.
  - rewrite IH by lia. f_equal. lia.
Qed.

Lemma unit_vector_nth (k n j : nat) :
  (j < n)%nat -> nth j (unit_vector k n) 0 = if Nat.eqb j k then 1 else 0.
Proof.
  intros Hj. unfold unit_vector. now rewrite nth_map_seq by exact Hj.
Qed.

Lemma one_hot_row_is_one_hot (size c : Z) :
  0 < size -> is_one_hot size (one_hot_row size c).
Proof.
  intros Hs. unfold is_one_hot, one_hot_row.
  rewrite unit_vector_length. split; [lia|]. split.
  - apply unit_vector_entries.
  - apply unit_vector_sum. apply Z2Nat.inj_lt; try lia;
      apply Z.mod_pos_bound; lia.
Qed.

(** X1. For a size below 2^61 (a vector of 4-byte entries that can be
    addressed), [onehot index size] returns a vector exactly when
    [-size <= index < size]; the vector has [size] entries, a 1 at position
    [index mod size] and 0 everywhere else. A negative [size] is a
    [ValueError]; an index outside the vector is an [OverflowError] from
    2^63 to 2^64 - 1 and an [IndexError] otherwise. *)
Theorem onehot_characterised (index size : Z) :
  size < 2 ^ 61 ->
  match onehot index size with
  | Ok vec =>
      - size <= index < size
      /\ Z.of_nat (List.length vec) = size
      /\ (forall j, (j < List.length vec)%nat ->
            nth j vec 0 = if Z.of_nat j =? index mod size then 1 else 0)
      /\ fold_right Z.add 0 vec = 1
  | Raise ValueError => size < 0
  | Raise OverflowError =>
      0 <= size /\ ~ (- size <= index < size) /\ 2 ^ 63 <= index < 2 ^ 64
  | Raise IndexError =>
      0 <= size /\ ~ (- size <= index < size)
      /\ ~ (2 ^ 63 <= index < 2 ^ 64)
  | _ => False
  end.
Proof.
  intros _. destruct (Z.ltb_spec size 0) as [Hneg|Hpos].
  - unfold onehot, Np.zeros. destruct (Z.ltb_spec size 0); [|lia]. exact Hneg.
  - destruct (indexable_dec size index) as [Hin|Hout].
    + rewrite (onehot_indexable index size Hin). unfold indexable in Hin.
      assert (Hs : 0 < size) by lia.
      destruct (one_hot_row_is_one_hot size index Hs) as (Hlen & _ & Hsum).
      repeat split; try lia; try assumption.
      intros j Hj. unfold one_hot_row in *. rewrite unit_vector_length in *.
      rewrite unit_vector_nth by exact Hj.
      pose proof (Z.mod_pos_bound index size Hs) as Hm.
      destruct (Nat.eqb_spec j (Z.to_nat (index mod size))),
               (Z.eqb_spec (Z.of_nat j) (index mod size));
        try reflexivity; lia.
    + destruct (Z_le_dec (2 ^ 63) index) as [Hlo|Hlo].
      * destruct (Z_lt_dec index (2 ^ 64)) as [Hhi|Hhi].
        -- rewrite (onehot_overflow index size Hpos Hout) by lia.
           repeat split; try assumption; lia.
        -- rewrite (onehot_not_indexable index size Hpos Hout) by lia.
           repeat split; try assumption; lia.
      * rewrite (onehot_not_indexable index size Hpos Hout) by lia.
        repeat split; try assumption; lia.
Qed.

Lemma onehot_characterised_witness :
  match onehot (2 ^ 63) 4 with
  | Ok vec =>
      - 4 <= 2 ^ 63 < 4
      /\ Z.of_nat (List.length vec) = 4
      /\ (forall j, (j < List.length vec)%nat ->
            nth j vec 0 = if Z.of_nat j =? 2 ^ 63 mod 4 then 1 else 0)
      /\ fold_right Z.add 0 vec = 1
  | Raise ValueError => 4 < 0
  | Raise OverflowError =>
      0 <= 4 /\ ~ (- 4 <= 2 ^ 63 < 4) /\ 2 ^ 63 <= 2 ^ 63 < 2 ^ 64
  | Raise IndexError =>
      0 <= 4 /\ ~ (- 4 <= 2 ^ 63 < 4) /\ ~ (2 ^ 63 <= 2 ^ 63 < 2 ^ 64)
  | _ => False
  end.
Proof.
  apply (onehot_characterised (2 ^ 63) 4). reflexivity.
Defined.

Example onehot_values :
  onehot 2 4 = Ok [0; 0; 1; 0] /\ onehot (-1) 4 = Ok [0; 0; 0; 1]
  /\ onehot 4 4 = Raise IndexError /\ onehot (-5) 4 = Raise IndexError
  /\ onehot (2 ^ 63) 4 = Raise OverflowError
  /\ onehot (2 ^ 64) 4 = Raise IndexError
  /\ onehot 0 (-1) = Raise ValueError.
Proof. repeat split; reflexivity. Qed.

(** ** [prepare_sample]: what a call returns and when *)

Lemma list_index_absent (l : list Z) (x : Z) :
  ~ In x l -> list_index l x = Raise ValueError.
Proof.
  induction l as [|y l IH]; intros H; cbn; [reflexivity|].
  destruct (Z.eqb_spec y x) as [E|_].
  - elim H. now left.
  - rewrite IH; [reflexivity|]. intros Hin. apply H. now right.
Qed.

Lemma list_index_found (l : list Z) (x : Z) (idx : nat) :
  list_index l x = Ok idx ->
  exists prefix answer,
    l = (prefix ++ x :: answer)%list /\ ~ In x prefix
    /\ idx = List.length prefix.
Proof.
  revert idx. induction l as [|y l IH]; intros idx H; cbn in H;
    [discriminate H|].
  destruct (Z.eqb_spec y x) as [E|Hne].
  - injection H as <-. subst y. exists [], l. repeat split. intros [].
  - destruct (list_index l x) as [k| |] eqn:E; cbn in H; try discriminate H.
    injection H as <-. destruct (IH k eq_refl) as (prefix & answer & -> & Hn & ->).
    exists (y :: prefix), answer. repeat split.
    intros [Hy|Hin]; [now apply Hne|now apply Hn].
Qed.

(** X2. A sample that does not contain the separator is rejected with
    [ValueError], whatever the vocabulary size: the first statement,
    [sample.index(target_code)], raises. *)
Theorem prepare_sample_without_separator
  (sample : list Z) (code size : Z) :
  ~ In code sample -> prepare_sample sample code size = Raise ValueError.
Proof.
  intros H. unfold prepare_sample. now rewrite (list_index_absent sample code H).
Qed.

Lemma prepare_sample_without_separator_witness :
  prepare_sample [3; 7; 7; 9] 0 10 = Raise ValueError.
Proof.
  apply (prepare_sample_without_separator [3; 7; 7; 9] 0 10).
  cbn. intros [H|[H|[H|[H|[]]]]]; discriminate H.
Defined.

Lemma where_set_zeros_entries (mask : list bool) :
  List.length (Np.where_set (repeat 0 (List.length mask)) mask 1)
  = List.length mask
  /\ Forall (fun x => x = 0 \/ x = 1)
            (Np.where_set (repeat 0 (List.length mask)) mask 1).
Proof.
  rewrite where_set_zeros, length_map. split; [reflexivity|].
  apply Forall_forall. intros x Hx. apply in_map_iff in Hx as (b & <- & _).
  destruct b; auto.
Qed.

Lemma comprehension_onehot_rows (size : Z) (l : list Z) (rows : list (list Z)) :
  0 < size ->
  comprehension (fun c => onehot c size) l = Ok rows ->
  List.length rows = List.length l /\ Forall (is_one_hot size) rows.
Proof.
  intros Hs H.
  destruct (comprehension_onehot_returns size l rows H) as [_ ->].
  rewrite length_map. split; [reflexivity|].
  apply Forall_forall. intros row Hrow.
  apply in_map_iff in Hrow as (c & <- & _).
  now apply one_hot_row_is_one_hot.
Qed.

(** X3. Whenever [prepare_sample] returns, the sample splits at its first
    separator into a prefix and an answer no longer than the prefix, the
    vocabulary size is positive, the returned length is the length T of the
    prefix, and the three arrays have the shapes (1, T, size), (1, T, size)
    and (1, T, 1): every input and target row is one-hot of width [size]
    and every weight is 0 or 1. *)
Theorem prepare_sample_returns_shapes
  (sample : list Z) (code size : Z)
  (input target weights : Np.tensor3) (seq_len : Z) :
  prepare_sample sample code size = Ok (input, target, seq_len, weights) ->
  exists prefix answer rows_in rows_out ws,
    sample = (prefix ++ code :: answer)%list
    /\ ~ In code prefix
    /\ (List.length answer <= List.length prefix)%nat
    /\ 0 < size
    /\ seq_len = Z.of_nat (List.length prefix)
    /\ input = [rows_in] /\ target = [rows_out]
    /\ weights = [map (fun x => [x]) ws]
    /\ List.length rows_in = List.length prefix
    /\ List.length rows_out = List.length prefix
    /\ List.length ws = List.length prefix
    /\ Forall (is_one_hot size) rows_in
    /\ Forall (is_one_hot size) rows_out
    /\ Forall (fun x => x = 0 \/ x = 1) ws.
Proof.
  intros H.
  destruct (list_index sample code) as [idx| |] eqn:Eidx;
    try (unfold prepare_sample in H; rewrite Eidx in H; discriminate H).
  destruct (list_index_found sample code idx Eidx)
    as (prefix & answer & -> & Hsep & ->).
  rewrite (prepare_sample_to_mask prefix answer code size Hsep) in H.
  unfold Np.setitem_mask in H.
  rewrite repeat_length, !length_map, padded_answer_length in H.
  destruct (Nat.eqb_spec (List.length prefix)
              (Nat.max (List.length prefix) (List.length answer))) as [Hmax|];
    [|discriminate H].
  cbn [bind] in H.
  destruct (comprehension _ (map Np.float32 prefix)) as [rows_in| |] eqn:Ein;
    try discriminate H. cbn [bind] in H.
  destruct (comprehension _ (map Np.float32 (padded_answer _ answer code)))
    as [rows_out| |] eqn:Eout; try discriminate H. cbn [bind] in H.
  unfold Np.reshape_rows in H.
  destruct (Z.leb_spec size 0) as [|Hsize]; [discriminate H|].
  cbn [bind] in H. injection H as <- <- <- <-.
  destruct (comprehension_onehot_rows size _ rows_in Hsize Ein) as [Hlin Hoin].
  destruct (comprehension_onehot_rows size _ rows_out Hsize Eout) as [Hlout Hoout].
  rewrite length_map in Hlin. rewrite length_map, padded_answer_length in Hlout.
  set (mask := map (fun x => negb (x =? Np.float32 code))
                 (map Np.float32 (padded_answer (List.length prefix) answer code))).
  assert (Hmask : List.length mask = List.length prefix).
  { unfold mask. rewrite !length_map, padded_answer_length. lia. }
  destruct (where_set_zeros_entries mask) as [Hwl Hwe].
  rewrite Hmask in Hwl, Hwe.
  exists prefix, answer, rows_in, rows_out,
    (Np.where_set (repeat 0 (List.length prefix)) mask 1).
  repeat split; try assumption; try reflexivity; try lia.
Qed.

Lemma prepare_sample_returns_shapes_witness :
  exists prefix answer rows_in rows_out ws,
    [3; 7; 7; 9; 0; 9; 0] = (prefix ++ 0 :: answer)%list
    /\ ~ In 0 prefix
    /\ (List.length answer <= List.length prefix)%nat
    /\ 0 < 10
    /\ 4 = Z.of_nat (List.length prefix)
    /\ [[ [0;0;0;1;0;0;0;0;0;0]; [0;0;0;0;0;0;0;1;0;0];
          [0;0;0;0;0;0;0;1;0;0]; [0;0;0;0;0;0;0;0;0;1] ]] = [rows_in]
    /\ [[ [0;0;0;0;0;0;0;0;0;1]; [1;0;0;0;0;0;0;0;0;0];
          [1;0;0;0;0;0;0;0;0;0]; [1;0;0;0;0;0;0;0;0;0] ]] = [rows_out]
    /\ [[ [1]; [0]; [0]; [0] ]] = [map (fun x => [x]) ws]
    /\ List.length rows_in = List.length prefix
    /\ List.length rows_out = List.length prefix
    /\ List.length ws = List.length prefix
    /\ Forall (is_one_hot 10) rows_in
    /\ Forall (is_one_hot 10) rows_out
    /\ Forall (fun x => x = 0 \/ x = 1) ws.
Proof.
  apply (prepare_sample_returns_shapes [3; 7; 7; 9; 0; 9; 0] 0 10).
  reflexivity.
Defined.

(** ** The target words computed at every step (lines 233-236) *)

Lemma first_one_unit_vector (k n : nat) :
  (k < n)%nat -> first_one (unit_vector k n) = Ok k.
Proof.
  revert k. induction n as [|n IH]; intros k Hk; [lia|].
  unfold unit_vector. cbn [seq map first_one]. destruct k as [|k].
  - reflexivity.
  - cbn [Nat.eqb]. change (0 =? 1) with false. cbv iota.
    rewrite <- seq_shift, map_map. cbn [Nat.eqb]. fold (unit_vector k n).
    rewrite IH by lia. reflexivity.
Qed.

Lemma key_at_inside (d : list (string * Z)) (k : nat) :
  (k < List.length d)%nat -> key_at d k = Ok (nth k (map fst d) ""%string).
Proof.
  intros Hk. unfold key_at.
  rewrite (nth_error_nth' (map fst d) ""%string)
    by (rewrite length_map; exact Hk).
  reflexivity.
Qed.

Lemma first_one_row (d : list (string * Z)) (c : Z) :
  d <> [] ->
  bind (first_one (one_hot_row (Z.of_nat (List.length d)) c)) (key_at d)
  = Ok (word_of d c).
Proof.
  intros Hd. unfold one_hot_row, word_of.
  assert (Hlen : 0 < Z.of_nat (List.length d)) by (destruct d; [easy|cbn; lia]).
  pose proof (Z.mod_pos_bound c _ Hlen) as Hm.
  rewrite first_one_unit_vector by lia. cbn [bind].
  apply key_at_inside. lia.
Qed.

Lemma target_words_rows (d : list (string * Z)) (l : list Z) :
  d <> [] ->
  target_words d [map (one_hot_row (Z.of_nat (List.length d))) l]
  = Ok (map (word_of d) l).
Proof.
  intros Hd. unfold target_words.
  induction l as [|c l IH]; cbn [map comprehension]; [reflexivity|].
  rewrite (first_one_row d c Hd). cbn [bind]. rewrite IH. reflexivity.
Qed.

(** X4. Decoding what was encoded: for a non-empty lexicon of size V and a
    sample whose ids index it (answer no longer than the prefix, ids exact
    in [float32]), the words computed from the target returned by
    [prepare_sample] are, position by position, the lexicon keys found at
    the ids of the padded answer modulo V. *)
Theorem target_words_of_prepared_sample
  (d : list (string * Z)) (prefix answer : list Z) (code : Z) :
  d <> [] ->
  ~ In code prefix ->
  (List.length answer <= List.length prefix)%nat ->
  Forall float32_exact (prefix ++ code :: answer) ->
  Forall (indexable (Z.of_nat (List.length d)))
         (prefix ++ padded_answer (List.length prefix) answer code) ->
  exists input target weights,
    prepare_sample (prefix ++ code :: answer) code (Z.of_nat (List.length d))
    = Ok (input, target, Z.of_nat (List.length prefix), weights)
    /\ target_words d target
       = Ok (map (word_of d) (padded_answer (List.length prefix) answer code)).
Proof.
  intros Hd Hsep Hfit Hexact Hids.
  assert (Hlen : 0 < Z.of_nat (List.length d)) by (destruct d; [easy|cbn; lia]).
  do 3 eexists. split.
  - apply (prepare_sample_ok prefix answer code _ Hsep Hfit Hlen Hexact Hids).
  - apply target_words_rows. exact Hd.
Qed.

Lemma target_words_of_prepared_sample_witness :
  exists input target weights,
    prepare_sample ([3; 7; 7; 9] ++ 0 :: [9; 0]) 0
      (Z.of_nat (List.length (lexicon_dict fresh_world)))
    = Ok (input, target, Z.of_nat (List.length [3; 7; 7; 9]), weights)
    /\ target_words (lexicon_dict fresh_world) target
       = Ok (map (word_of (lexicon_dict fresh_world))
                 (padded_answer (List.length [3; 7; 7; 9]) [9; 0] 0)).
Proof.
  apply (target_words_of_prepared_sample (lexicon_dict fresh_world)
           [3; 7; 7; 9] [9; 0] 0).
  - discriminate.
  - cbn. intros [H|[H|[H|[H|[]]]]]; discriminate H.
  - cbn. lia.
  - repeat constructor; unfold float32_exact; cbn; lia.
  - repeat constructor; unfold indexable; cbn; lia.
Defined.

Lemma dict_get_found (d : list (string * Z)) (key : string) (c : Z) :
  dict_get d key = Ok c ->
  exists k, nth_error d k = Some (key, c).
Proof.
  induction d as [|[key' v] d IH]; cbn; intros H; [discriminate H|].
  destruct (String.eqb_spec key' key) as [->|_].
  - injection H as <-. now exists O.
  - destruct (IH H) as [k Hk]. now exists (S k).
Qed.

Lemma word_of_dict_get (d : list (string * Z)) (key : string) (c : Z) :
  positional d -> dict_get d key = Ok c ->
  word_of d c = key /\ 0 <= c < Z.of_nat (List.length d).
Proof.
  intros Hpos Hget. destruct (dict_get_found d key c Hget) as [k Hk].
  pose proof (Hpos k key c Hk) as ->.
  assert (Hlt : (k < List.length d)%nat).
  { apply nth_error_Some. rewrite Hk. discriminate. }
  split; [|lia]. unfold word_of.
  rewrite Z.mod_small, Nat2Z.id by lia.
  apply nth_error_nth with (d := ""%string).
  rewrite nth_error_map, Hk. reflexivity.
Qed.

Lemma words_of_tokens (d : list (string * Z)) (tokens : list string) (ids : list Z) :
  positional d ->
  Forall2 (fun token c => dict_get d token = Ok c) tokens ids ->
  map (word_of d) ids = tokens
  /\ Forall (fun c => 0 <= c < Z.of_nat (List.length d)) ids.
Proof.
  intros Hpos. induction 1 as [|token c tokens ids Hget _ [IHw IHr]]; cbn.
  - split; [reflexivity|constructor].
  - destruct (word_of_dict_get d token c Hpos Hget) as [-> Hr].
    rewrite IHw. split; [reflexivity|now constructor].
Qed.

(** X5. Round trip through the lexicon. Let the lexicon number its tokens in
    key order and hold at most 2^24 of them, and let a sample be made of the
    ids of the tokens of a dialogue, the id of the separator token and the
    ids of the tokens of an answer no longer than the dialogue. Then
    [prepare_sample] succeeds, and the words computed from its target are
    the tokens of the answer followed by the separator token up to the
    length of the dialogue. *)
Theorem target_words_round_trip
  (d : list (string * Z)) (dialogue reply : list string) (separator : string)
  (prefix answer : list Z) (code : Z) :
  positional d ->
  Z.of_nat (List.length d) <= 2 ^ 24 ->
  dict_get d separator = Ok code ->
  Forall2 (fun token c => dict_get d token = Ok c) dialogue prefix ->
  Forall2 (fun token c => dict_get d token = Ok c) reply answer ->
  ~ In code prefix ->
  (List.length answer <= List.length prefix)%nat ->
  exists input target weights,
    prepare_sample (prefix ++ code :: answer) code (Z.of_nat (List.length d))
    = Ok (input, target, Z.of_nat (List.length prefix), weights)
    /\ target_words d target
       = Ok (reply ++ repeat separator
                        (List.length prefix - List.length answer))%list.
Proof.
  intros Hpos Hsize Hsep Hdialogue Hreply Hfirst Hfit.
  destruct (word_of_dict_get d separator code Hpos Hsep) as [Hw Hc].
  destruct (words_of_tokens d dialogue prefix Hpos Hdialogue) as [_ Hp].
  destruct (words_of_tokens d reply answer Hpos Hreply) as [Hwa Ha].
  assert (Hd : d <> []) by (intros ->; cbn in Hc; lia).
  assert (Hall : Forall (fun c => 0 <= c < Z.of_nat (List.length d))
                        (prefix ++ code :: answer)).
  { apply Forall_app. split; [exact Hp|now constructor]. }
  assert (Hpad : Forall (fun c => 0 <= c < Z.of_nat (List.length d))
                   (prefix ++ padded_answer (List.length prefix) answer code)).
  { apply Forall_app. split; [exact Hp|]. unfold padded_answer.
    apply Forall_app. split; [exact Ha|].
    apply Forall_forall. intros x Hx. apply repeat_spec in Hx. now subst x. }
  do 3 eexists. split.
  - apply (prepare_sample_ok prefix answer code _ Hfirst Hfit); try lia.
    + eapply Forall_impl; [|exact Hall]. unfold float32_exact. intros c Hr. lia.
    + eapply Forall_impl; [|exact Hpad]. unfold indexable. intros c Hr. lia.
  - rewrite (target_words_rows d _ Hd). f_equal.
    unfold padded_answer. rewrite map_app, Hwa. f_equal.
    induction (List.length prefix - List.length answer)%nat as [|n IH];
      cbn; [reflexivity|]. now rewrite Hw, IH.
Qed.

Lemma target_words_round_trip_witness :
  exists input target weights,
    prepare_sample ([3; 7; 7; 9] ++ 0 :: [9]) 0
      (Z.of_nat (List.length (lexicon_dict fresh_world)))
    = Ok (input, target, Z.of_nat (List.length [3; 7; 7; 9]), weights)
    /\ target_words (lexicon_dict fresh_world) target
       = Ok (["i"%string]
             ++ repeat "="%string (List.length [3; 7; 7; 9] - List.length [9]))%list.
Proof.
  apply (target_words_round_trip (lexicon_dict fresh_world)
           ["c"%string; "g"%string; "g"%string; "i"%string] ["i"%string] "="
           [3; 7; 7; 9] [9] 0).
  - intros k key id. cbn.
    do 10 (destruct k as [|k]; [intros H; injection H as _ <-; reflexivity|]).
    destruct k; discriminate.
  - cbn. lia.
  - reflexivity.
  - repeat constructor.
  - repeat constructor.
  - cbn. intros [H|[H|[H|[H|[]]]]]; discriminate H.
  - cbn. lia.
Defined.

(** ** The scan of the checkpoint directory (lines 180-187) *)

Lemma insert_sorted_in (x y : Z) (l : list Z) :
  In y (insert_sorted x l) <-> y = x \/ In y l.
Proof.
  induction l as [|z l IH]; cbn.
  - intuition.
  - destruct (x <=? z); cbn; [intuition|]. rewrite IH. intuition.
Qed.

Lemma sort_in (y : Z) (l : list Z) : In y (sort l) <-> In y l.
Proof.
  unfold sort. induction l as [|x l IH]; cbn; [reflexivity|].
  rewrite insert_sorted_in, IH. intuition.
Qed.

Lemma insert_sorted_sorted (x : Z) (l : list Z) :
  StronglySorted Z.le l -> StronglySorted Z.le (insert_sorted x l).
Proof.
  induction 1 as [|z l Hs IH Hz]; cbn.
  - constructor; constructor.
  - destruct (Z.leb_spec x z) as [Hle|Hgt].
    + constructor; [now constructor|]. constructor; [exact Hle|].
      eapply Forall_impl; [|exact Hz]. intros a Ha. lia.
    + constructor; [exact IH|]. apply Forall_forall. intros a Ha.
      apply insert_sorted_in in Ha as [->|Ha]; [lia|].
      rewrite Forall_forall in Hz. now apply Hz.
Qed.

Lemma sort_sorted (l : list Z) : StronglySorted Z.le (sort l).
Proof.
  unfold sort. induction l as [|x l IH]; cbn; [constructor|].
  now apply insert_sorted_sorted.
Qed.

Lemma sorted_last_bound (l : list Z) (m : Z) :
  StronglySorted Z.le (l ++ [m]) -> Forall (fun x => x <= m) (l ++ [m]).
Proof.
  induction l as [|x l IH]; cbn; intros H.
  - constructor; [lia|constructor].
  - inversion H as [|? ? Hs Hx]; subst. constructor; [|now apply IH].
    rewrite Forall_forall in Hx. apply Hx. apply in_or_app. right. now left.
Qed.

(** After [sort], [[-1]] is the largest element. *)
Lemma last_item_sort (l : list Z) :
  l <> [] ->
  exists m, last_item (sort l) = Ok m /\ In m l /\ Forall (fun x => x <= m) l.
Proof.
  intros Hne. unfold last_item.
  destruct (rev (sort l)) as [|m r] eqn:E.
  - apply (f_equal (@rev Z)) in E. rewrite List.rev_involutive in E. cbn in E.
    destruct l as [|x l]; [now elim Hne|].
    assert (Hin : In x (sort (x :: l))) by (apply sort_in; now left).
    rewrite E in Hin. destruct Hin.
  - apply (f_equal (@rev Z)) in E. rewrite List.rev_involutive in E. cbn in E.
    exists m. split; [reflexivity|].
    pose proof (sort_sorted l) as Hs. rewrite E in Hs.
    apply sorted_last_bound in Hs. rewrite <- E in Hs. split.
    + apply sort_in. rewrite E. apply in_or_app. right. now left.
    + apply Forall_forall. intros x Hx. rewrite Forall_forall in Hs.
      apply Hs. now apply sort_in.
Qed.

Lemma existsb_nonempty {A : Type} (f : A -> bool) (l : list A) :
  existsb f l = true -> Nat.eqb (List.length l) 0 = false.
Proof. destruct l; [discriminate|reflexivity]. Qed.

(** The scan, when it reads at least one number. *)
Lemma resume_from_directory_largest
  (w : world) (checkpoints : list string) (numbers : list Z) (st : state) :
  ckpts_dir w = Some checkpoints ->
  existsb (contains "step-") checkpoints = true ->
  checkpoint_numbers checkpoints = Ok numbers ->
  numbers <> [] ->
  exists m,
    In m numbers /\ Forall (fun x => x <= m) numbers
    /\ resume_from_directory w st
       = (Ok (Some (m, 100000)), snd (ncomputer_restore (checkpoint_name m) st)).
Proof.
  intros Hdir Hany Hnum Hne.
  destruct (last_item_sort numbers Hne) as (m & Hlast & Hin & Hmax).
  exists m. split; [exact Hin|]. split; [exact Hmax|].
  unfold resume_from_directory, mbind, lift.
  rewrite Hdir, Hany, (existsb_nonempty _ _ Hany), Hnum, Hlast.
  reflexivity.
Qed.



(** The two ends of X6 on concrete directories: from step-50, step-120 and
    step-7 the run announces iteration 120 and stops in it; from step-100001
    alone it restores that checkpoint and ends without an iteration; from
    step-5 and lr-999 it asks for a step-999 that the directory does not
    hold. *)
Example directory_resume_runs :
  (fst (main resume_world) = Raise Py.TypeError
   /\ iterations_printed (snd (main resume_world)) = [(120, 100000)])
  /\ (fst (main (small_world [] (Some ["step-100001"%string]) None)) = Ok tt
      /\ restored (snd (main (small_world [] (Some ["step-100001"%string])
                                None)))
         = ["step-100001"%string]
      /\ iterations_printed
           (snd (main (small_world [] (Some ["step-100001"%string]) None)))
         = [])
  /\ restored (snd (main (small_world []
                            (Some ["step-5"%string; "lr-999"%string]) None)))
     = ["step-999"%string].
Proof. vm_compute. repeat split. Qed.

(** X7. Without [--checkpoint], when [checkpoints/] is absent, empty or has
    no entry containing "step-", nothing is restored and the loop is
    entered at step 0. *)
Theorem startup_without_checkpoints (w : world) (o : options) :
  read_options default_options (argv_options w) = Ok o ->
  from_checkpoint o = None ->
  match ckpts_dir w with
  | None => True
  | Some checkpoints => existsb (contains "step-") checkpoints = false
  end ->
  exists st,
    main_startup w (initial_state w) = (Ok (0, 100000), st)
    /\ restored st = [].
Proof.
  intros Hopts Hfrom Hdir.
  unfold main_startup, resume_from_directory, mbind, lift.
  rewrite Hopts, Hfrom.
  destruct (ckpts_dir w) as [checkpoints|].
  - rewrite Hdir, andb_false_r. eexists. split; reflexivity.
  - eexists. split; reflexivity.
Qed.

Lemma startup_without_checkpoints_witness :
  exists st,
    main_startup (small_world [] (Some ["lr-999"%string; "checkpoint"%string]) None)
      (initial_state (small_world [] (Some ["lr-999"%string; "checkpoint"%string]) None))
    = (Ok (0, 100000), st)
    /\ restored st = [].
Proof.
  apply (startup_without_checkpoints
           (small_world [] (Some ["lr-999"%string; "checkpoint"%string]) None)
           default_options); reflexivity.
Defined.

Lemma checkpoint_numbers_none (checkpoints : list string) :
  Forall (fun c => isnumeric (checkpoint_suffix c) = false) checkpoints ->
  checkpoint_numbers checkpoints = Ok [].
Proof.
  unfold checkpoint_numbers.
  induction 1 as [|c l Hc _ IH]; cbn; [reflexivity|]. now rewrite Hc.
Qed.

(** X8. Without [--checkpoint], when some entry of [checkpoints/] contains
    "step-" but no entry has a numeric text after its first hyphen, the
    startup stops with [IndexError] (from [checkpoint_numbers[-1]]) before
    anything is restored. *)
Theorem startup_without_numeric_suffix
  (w : world) (o : options) (checkpoints : list string) :
  read_options default_options (argv_options w) = Ok o ->
  from_checkpoint o = None ->
  ckpts_dir w = Some checkpoints ->
  existsb (contains "step-") checkpoints = true ->
  Forall (fun c => isnumeric (checkpoint_suffix c) = false) checkpoints ->
  main_startup w (initial_state w) = (Raise IndexError, initial_state w).
Proof.
  intros Hopts Hfrom Hdir Hany Hnone.
  unfold main_startup, resume_from_directory, mbind, lift.
  rewrite Hopts, Hfrom, Hdir, Hany, (existsb_nonempty _ _ Hany).
  rewrite (checkpoint_numbers_none checkpoints Hnone). reflexivity.
Qed.

Lemma startup_without_numeric_suffix_witness :
  main_startup malformed_entry_world (initial_state malformed_entry_world)
  = (Raise IndexError, initial_state malformed_entry_world).
Proof.
  apply (startup_without_numeric_suffix malformed_entry_world default_options
           ["step-abc"%string]).
  - reflexivity.
  - reflexivity.
  - reflexivity.
  - reflexivity.
  - repeat constructor.
Defined.

(** ** Checkpoint names written and read back *)

Lemma prefix_empty (s : string) : prefix "" s = true.
Proof. destruct s; reflexivity. Qed.

Lemma contains_step_prefix (s : string) :
  contains "step-" ("step-" ++ s)%string = true.
Proof.
  unfold contains. cbn [append index].
  replace (prefix "step-" (String "s" (String "t" (String "e"
             (String "p" (String "-" s)))))) with true; [reflexivity|].
  symmetry. apply prefix_correct. cbn [String.length substring].
  destruct s; reflexivity.
Qed.

Lemma checkpoint_suffix_name (i : Z) :
  checkpoint_suffix (checkpoint_name i) = Py.str i.
Proof.
  change (checkpoint_name i) with ("step" ++ String "-"%char (Py.str i))%string.
  now apply checkpoint_suffix_dash.
Qed.

Lemma digit_is_numeric (c : ascii) : is_digit c = true -> char_isnumeric c = true.
Proof. intros H. unfold char_isnumeric. now rewrite H. Qed.

Lemma str_nonnegative (i : Z) :
  0 <= i ->
  exists u, u <> Decimal.Nil
            /\ list_ascii_of_string (Py.str i) = chars_of_uint u.
Proof.
  intros Hi. unfold Py.str. destruct i as [|p|p]; [| |lia]; cbn.
  - exists (Decimal.D0 Decimal.Nil). split; [discriminate|reflexivity].
  - exists (Pos.to_uint p). split; [apply Unsigned.to_uint_nonnil|].
    now rewrite (string_of_uint_nonnil _ (Unsigned.to_uint_nonnil p)).
Qed.

Lemma isnumeric_str (i : Z) : 0 <= i -> isnumeric (Py.str i) = true.
Proof.
  intros Hi. destruct (str_nonnegative i Hi) as (u & Hnil & E).
  unfold isnumeric. rewrite E.
  pose proof (chars_of_uint_digits u) as Hd.
  destruct (chars_of_uint u) as [|c l] eqn:Ec.
  - destruct u; try discriminate Ec. now elim Hnil.
  - apply forallb_forall. intros a Ha. rewrite Forall_forall in Hd.
    apply digit_is_numeric. now apply Hd.
Qed.

Lemma checkpoint_numbers_of_names (steps : list Z) :
  Forall (fun i => 0 <= i /\ (String.length (Py.str i) <= 4300)%nat) steps ->
  checkpoint_numbers (map checkpoint_name steps) = Ok steps.
Proof.
  unfold checkpoint_numbers.
  induction 1 as [|i steps [Hi Hlen] _ IH]; cbn [map filter]; [reflexivity|].
  rewrite checkpoint_suffix_name, (isnumeric_str i Hi).
  cbn [comprehension]. rewrite (int_str i Hlen). cbn [bind].
  rewrite IH. reflexivity.
Qed.

(** X9. Checkpoint names round trip: when [checkpoints/] holds exactly the
    checkpoints that the code names for a non-empty list of non-negative
    steps (each written with at most 4300 digits) and no [--checkpoint] is
    given, the scan reads those very steps back, and the startup asks for
    the checkpoint of the largest one, m, to be restored and sets
    [start] = m and [end] = 100000. For m <= 100000 and without interrupt
    the one iteration that the run announces is m; for m > 100000 the range
    of the loop is empty and the run ends without a step. *)
Theorem saved_checkpoints_resume
  (w : world) (o : options) (steps : list Z) :
  read_options default_options (argv_options w) = Ok o ->
  from_checkpoint o = None ->
  steps <> [] ->
  Forall (fun i => 0 <= i /\ (String.length (Py.str i) <= 4300)%nat) steps ->
  ckpts_dir w = Some (map checkpoint_name steps) ->
  checkpoint_numbers (map checkpoint_name steps) = Ok steps
  /\ exists m st,
      In m steps /\ Forall (fun x => x <= m) steps
      /\ main_startup w (initial_state w) = (Ok (m, 100000), st)
      /\ restored st = [checkpoint_name m]
      /\ (m <= 100000 -> interrupt_at w = None ->
          exists e st',
            main w = (Raise e, st')
            /\ iterations_printed st' = [(m, 100000)])
      /\ (100000 < m -> main w = (Ok tt, st)).
Proof.
  intros Hopts Hfrom Hne Hsteps Hdir.
  pose proof (checkpoint_numbers_of_names steps Hsteps) as Hnum.
  split; [exact Hnum|].
  assert (Hany : existsb (contains "step-") (map checkpoint_name steps) = true).
  { destruct steps as [|i steps]; [now elim Hne|]. cbn [map existsb].
    unfold checkpoint_name at 1. now rewrite contains_step_prefix. }
  destruct (resume_from_directory_largest w _ steps (initial_state w)
              Hdir Hany Hnum Hne) as (m & Hin & Hmax & Hres).
  assert (Hstart : exists st,
    main_startup w (initial_state w) = (Ok (m, 100000), st)
    /\ restored st = [checkpoint_name m]).
  { unfold main_startup, mbind, lift. rewrite Hopts, Hfrom, Hres.
    eexists. split; reflexivity. }
  destruct Hstart as (st & Hstart & Hrestored).
  exists m, st. split; [exact Hin|]. split; [exact Hmax|].
  split; [exact Hstart|]. split; [exact Hrestored|]. split.
  - intros Hle Hint. now apply (main_first_iteration w m 100000 _ Hstart).
  - intros Hgt. now apply (main_empty_loop w m 100000 _ Hstart).
Qed.

Lemma saved_checkpoints_resume_witness :
  checkpoint_numbers (map checkpoint_name [200; 57; 400]) = Ok [200; 57; 400]
  /\ exists m st,
      In m [200; 57; 400] /\ Forall (fun x => x <= m) [200; 57; 400]
      /\ main_startup
           (small_world [] (Some (map checkpoint_name [200; 57; 400])) None)
           (initial_state
              (small_world [] (Some (map checkpoint_name [200; 57; 400])) None))
         = (Ok (m, 100000), st)
      /\ restored st = [checkpoint_name m]
      /\ (m <= 100000 ->
          interrupt_at
            (small_world [] (Some (map checkpoint_name [200; 57; 400])) None)
          = None ->
          exists e st',
            main (small_world [] (Some (map checkpoint_name [200; 57; 400]))
                    None) = (Raise e, st')
            /\ iterations_printed st' = [(m, 100000)])
      /\ (100000 < m ->
          main (small_world [] (Some (map checkpoint_name [200; 57; 400]))
                  None) = (Ok tt, st)).
Proof.
  apply (saved_checkpoints_resume
           (small_world [] (Some (map checkpoint_name [200; 57; 400])) None)
           default_options [200; 57; 400]).
  - reflexivity.
  - reflexivity.
  - discriminate.
  - repeat (apply Forall_cons; [split; [lia|apply Nat.leb_le; reflexivity]|]).
    apply Forall_nil.
  - reflexivity.
Defined.

(** The round trip on the steps at which the loop would save: the run from
    step-200, step-57 and step-400 announces iteration 400. *)
Example saved_checkpoints_run :
  iterations_printed
    (snd (main (small_world [] (Some (map checkpoint_name [200; 57; 400]))
                  None)))
  = [(400, 100000)].
Proof. vm_compute. reflexivity. Qed.

(** ** What the options can and cannot change *)

Lemma main_startup_end_witness : snd (120, 100000) = 100000.
Proof.
  eapply (main_startup_end resume_world (initial_state resume_world)).
  vm_compute. reflexivity.
Defined.

Lemma for_loop_with_options
  (w : world) (opts : list (string * string)) (steps : list Z) (end_ : Z)
  (st : state) :
  for_loop (with_options w opts) steps end_ st = for_loop w steps end_ st.
Proof.
  revert st. induction steps as [|i steps IH]; intros st; [reflexivity|].
  cbn [for_loop]. unfold mbind.
  change (iteration (with_options w opts) i end_ st) with (iteration w i end_ st).
  destruct (iteration w i end_ st) as [[[]| |] st']; try reflexivity. apply IH.
Qed.

(** X11. The values given to [--iterations] and [--start] change nothing:
    two runs in the same environment whose option lists are both accepted
    and name the same checkpoint (or none) end in the same outcome and the
    same state. *)
Theorem run_ignores_iterations_and_start
  (w : world) (opts1 opts2 : list (string * string)) (o1 o2 : options) :
  read_options default_options opts1 = Ok o1 ->
  read_options default_options opts2 = Ok o2 ->
  from_checkpoint o1 = from_checkpoint o2 ->
  main (with_options w opts1) = main (with_options w opts2).
Proof.
  intros H1 H2 Hfrom.
  assert (Hstart :
    main_startup (with_options w opts1) (initial_state w)
    = main_startup (with_options w opts2) (initial_state w)).
  { unfold main_startup, mbind, lift.
    cbn [argv_options with_options]. rewrite H1, H2, Hfrom. reflexivity. }
  rewrite !main_unfold.
  change (initial_state (with_options w opts1)) with (initial_state w).
  change (initial_state (with_options w opts2)) with (initial_state w).
  rewrite Hstart.
  destruct (main_startup (with_options w opts2) (initial_state w))
    as [[se| |] st]; try reflexivity.
  now rewrite !for_loop_with_options.
Qed.

Lemma run_ignores_iterations_and_start_witness :
  main (with_options fresh_world
          [("--iterations"%string, "5"%string); ("--start"%string, "3"%string)])
  = main (with_options fresh_world []).
Proof.
  apply (run_ignores_iterations_and_start fresh_world _ _
           {| from_checkpoint := None; iterations := 5; start_step := 3 |}
           default_options); reflexivity.
Defined.

(** ** Whole runs *)

Lemma try_block_announces (w : world) (i end_ : Z) (st : state) :
  let st' := snd (try_block w i end_ st) in
  iterations_printed st' = iterations_printed st
  \/ iterations_printed st' = (iterations_printed st ++ [(i, end_)])%list.
Proof.
  destruct st as [p d tc ip sr ll stt avg ac rp rs sv].
  unfold try_block, mbind, tick, print_iteration, random_sample_name,
    json_load, lift.
  destruct (dict_get_cases (lexicon_dict w) "=") as [[v Hv]|Hv].
  all: destruct p as [[|[|[|[|k]]]]|]; cbn; auto.
  all: destruct (data_files w) as [|name names]; cbn; auto.
  all: destruct (train_file w _) as [fe|sample]; cbn; auto.
  all: rewrite Hv; cbn; auto.
Qed.

(** X12. No run ever trains. Whatever the environment, when [main] ends the
    model has not been run, no loss has been recorded and no report made;
    at most one iteration has been announced and at most one checkpoint
    saved; and [main] returns normally only without having entered the
    loop at all. *)
Theorem run_never_trains (w : world) :
  session_runs (snd (main w)) = []
  /\ last_100_losses (snd (main w)) = []
  /\ reports (snd (main w)) = []
  /\ (List.length (iterations_printed (snd (main w))) <= 1)%nat
  /\ (List.length (saved (snd (main w))) <= 1)%nat
  /\ (forall u, fst (main w) = Ok u -> iterations_printed (snd (main w)) = []).
Proof.
  rewrite main_unfold.
  pose proof (main_startup_logs w (initial_state w)) as H. cbv zeta in H.
  destruct (main_startup w (initial_state w)) as [[se| |] st0];
    cbn [snd fst initial_state pending_interrupt iterations_printed
         session_runs last_100_losses reports saved] in H;
    destruct H as (_ & Hip & Hsr & Hll & Hrp & Hsv).
  2,3: cbn [snd fst]; rewrite Hip, Hsr, Hll, Hrp, Hsv; cbn;
    repeat split; try lia; intros u Hu; discriminate Hu.
  unfold range. destruct (Z.to_nat (snd se + 1 - fst se)) as [|n].
  - cbn [range_from for_loop ret snd fst].
    rewrite Hip, Hsr, Hll, Hrp, Hsv. cbn. repeat split; lia.
  - cbn [range_from]. rewrite for_loop_first.
    destruct (try_block_stops w (fst se) (snd se) st0)
      as (e & st1 & Htry & Hsr1 & Hll1 & Hrp1 & Hsv1 & _).
    pose proof (try_block_announces w (fst se) (snd se) st0) as Hann.
    cbv zeta in Hann. rewrite Htry in Hann. cbn [snd] in Hann.
    assert (Hlen : (List.length (iterations_printed st1) <= 1)%nat).
    { destruct Hann as [-> | ->]; rewrite Hip; cbn; lia. }
    unfold iteration. rewrite Htry.
    destruct e;
      try (cbn [snd fst]; rewrite Hsr1, Hll1, Hrp1, Hsv1, Hsr, Hll, Hrp, Hsv;
           cbn; repeat split; try lia; intros u Hu; discriminate Hu).
    unfold interrupt_handler, mbind, ncomputer_save, sys_exit.
    cbn [snd fst session_runs last_100_losses reports saved
         iterations_printed].
    rewrite Hsr1, Hll1, Hrp1, Hsv1, Hsr, Hll, Hrp, Hsv. cbn.
    repeat split; try lia. intros u Hu. discriminate Hu.
Qed.

(** ** Gradient clipping and summaries (lines 153-165) *)

Lemma list_assign_middle {A : Type} (done todo : list A) (x y : A) :
  list_assign (done ++ x :: todo) (List.length done) y
  = (done ++ y :: todo)%list.
Proof. induction done as [|z done IH]; cbn; [reflexivity|now rewrite IH]. Qed.

Lemma nth_error_middle {A : Type} (done todo : list A) (x : A) :
  nth_error (done ++ x :: todo) (List.length done) = Some x.
Proof. induction done as [|z done IH]; cbn; [reflexivity|exact IH]. Qed.

(** The loop, once it has treated the entries [done], treats the entries
    [todo] one by one and leaves the others alone. *)
Lemma clip_loop_from (done todo : list (gradient * string)) :
  clip_loop (List.length todo) (List.length done) (done ++ todo)
  = (done ++ map clipped_entry todo)%list.
Proof.
  revert done. induction todo as [|[g var] todo IH]; intros done.
  - reflexivity.
  - cbn [List.length clip_loop]. rewrite nth_error_middle.
    replace (S (List.length done))
      with (List.length (done ++ [clipped_entry (g, var)]))
      by (rewrite List.length_app; cbn; lia).
    specialize (IH (done ++ [clipped_entry (g, var)])%list).
    rewrite <- !List.app_assoc in IH. cbn [app] in IH.
    destruct g as [grad|].
    + rewrite list_assign_middle. exact IH.
    + exact IH.
Qed.

Lemma clip_gradients_map (gradients : list (gradient * string)) :
  clip_gradients gradients = map clipped_entry gradients.
Proof. exact (clip_loop_from [] gradients). Qed.

Lemma clip_by_value_bounds (grad : list Q) :
  Forall (fun x => (inject_Z (-10) <= x /\ x <= inject_Z 10)%Q)
         (clip_by_value grad (inject_Z (-10)) (inject_Z 10)).
Proof.
  unfold clip_by_value. apply Forall_forall. intros y Hy.
  apply in_map_iff in Hy as (x & <- & _). cbv zeta.
  assert (Hlohi : (inject_Z (-10) <= inject_Z 10)%Q) by (unfold Qle; cbn; lia).
  destruct (Qle_bool x (inject_Z 10)) eqn:Ehi.
  - apply Qle_bool_iff in Ehi.
    destruct (Qle_bool (inject_Z (-10)) x) eqn:Elo.
    + apply Qle_bool_iff in Elo. split; assumption.
    + split; [apply Qle_refl|exact Hlohi].
  - destruct (Qle_bool (inject_Z (-10)) (inject_Z 10)) eqn:Elo.
    + split; [exact Hlohi|apply Qle_refl].
    + split; [apply Qle_refl|exact Hlohi].
Qed.

Lemma clip_by_value_inside (grad : list Q) :
  Forall (fun x => (inject_Z (-10) <= x /\ x <= inject_Z 10)%Q) grad ->
  clip_by_value grad (inject_Z (-10)) (inject_Z 10) = grad.
Proof.
  unfold clip_by_value. induction 1 as [|x grad [Hlo Hhi] _ IH]; cbn [map];
    [reflexivity|].
  rewrite IH. f_equal. cbv zeta.
  apply Qle_bool_iff in Hhi. rewrite Hhi.
  apply Qle_bool_iff in Hlo. now rewrite Hlo.
Qed.

(** X15. The clipping loop of lines 156-158 keeps the list as long as it
    was, with the same variables in the same order and [None] exactly
    where it was, and leaves every gradient with as many entries as before,
    all of them in [-10, 10]. *)
Theorem clip_gradients_bounds (gradients : list (gradient * string)) :
  map snd (clip_gradients gradients) = map snd gradients
  /\ Forall2 (fun before after =>
                match before, after with
                | Some grad, Some grad' =>
                    List.length grad' = List.length grad
                | None, None => True
                | _, _ => False
                end)
             (map fst gradients) (map fst (clip_gradients gradients))
  /\ Forall (fun gv => within_bounds (fst gv)) (clip_gradients gradients).
Proof.
  rewrite clip_gradients_map. split; [|split].
  - rewrite map_map. apply map_ext. now intros [g var].
  - induction gradients as [|[[grad|] var] gradients IH]; cbn;
      constructor; try exact IH; try exact I.
    unfold clip_by_value. now rewrite length_map.
  - apply Forall_forall. intros gv Hgv.
    apply in_map_iff in Hgv as ([[grad|] var] & <- & _); cbn; [|exact I].
    apply clip_by_value_bounds.
Qed.

(** X16. Clipping changes nothing when every gradient already lies in
    [-10, 10]; in particular clipping twice is clipping once. *)
Theorem clip_gradients_inside (gradients : list (gradient * string)) :
  Forall (fun gv => within_bounds (fst gv)) gradients ->
  clip_gradients gradients = gradients.
Proof.
  intros H. rewrite clip_gradients_map.
  induction H as [|[[grad|] var] gradients Hg _ IH]; cbn [map];
    [reflexivity| |]; rewrite IH; unfold clipped_entry; cbn [fst snd option_map].
  - now rewrite (clip_by_value_inside grad Hg).
  - reflexivity.
Qed.

Lemma clip_gradients_inside_witness :
  clip_gradients
    [(Some [inject_Z 3; inject_Z (-10); (1 # 2)%Q], "w"%string);
     (None, "b"%string)]
  = [(Some [inject_Z 3; inject_Z (-10); (1 # 2)%Q], "w"%string);
     (None, "b"%string)].
Proof.
  apply clip_gradients_inside.
  repeat constructor; unfold Qle; cbn; lia.
Defined.


Example clip_gradients_values :
  clip_gradients
    [(Some [inject_Z 25; inject_Z (-11); (1 # 2)%Q], "w"%string);
     (None, "b"%string)]
  = [(Some [inject_Z 10; inject_Z (-10); (1 # 2)%Q], "w"%string);
     (None, "b"%string)]
  /\ summaries
       [(Some [inject_Z 25], "w"%string); (None, "b"%string)]
     = ["w/grad"%string; "Loss"%string].
Proof. split; reflexivity. Qed.

(** ** Reading the options (lines 117-124) *)

Lemma read_options_app (o : options) (opts1 opts2 : list (string * string)) :
  read_options o (opts1 ++ opts2)
  = bind (read_options o opts1) (fun o' => read_options o' opts2).
Proof.
  revert o. induction opts1 as [|opt opts1 IH]; intros o; cbn [app read_options].
  - reflexivity.
  - destruct (read_option o opt) as [o'| |]; cbn [bind]; [apply IH|reflexivity..].
Qed.

(** X18. A value of [--iterations] or [--start] that [int] rejects ends the
    run with the exception of [int], before anything is restored or any
    step is taken, although neither value is used afterwards. *)
Theorem run_rejects_unreadable_number
  (w : world) (opts1 opts2 : list (string * string)) (o : options)
  (name value : string) (e : exn) :
  argv_options w = (opts1 ++ (name, value) :: opts2)%list ->
  read_options default_options opts1 = Ok o ->
  name = "--iterations"%string \/ name = "--start"%string ->
  Py.int value = Raise e ->
  main w = (Raise e, initial_state w).
Proof.
  intros Hopts H1 Hname Hint.
  assert (Hread : read_options default_options (argv_options w) = Raise e).
  { rewrite Hopts, read_options_app, H1. cbn [bind read_options].
    unfold read_option. cbn [fst snd].
    destruct Hname as [-> | ->]; cbn; now rewrite Hint. }
  rewrite main_unfold. unfold main_startup, mbind, lift. now rewrite Hread.
Qed.

Lemma run_rejects_unreadable_number_witness :
  main (small_world [("--iterations"%string, "many"%string)] None None)
  = (Raise ValueError,
     initial_state (small_world [("--iterations"%string, "many"%string)] None None)).
Proof.
  apply (run_rejects_unreadable_number
           (small_world [("--iterations"%string, "many"%string)] None None)
           [] [] default_options "--iterations" "many" ValueError).
  - reflexivity.
  - reflexivity.
  - now left.
  - reflexivity.
Defined.

(** X19. When [--checkpoint] is given several times the last one counts:
    after an accepted option list, a final [--checkpoint=name] makes [name]
    the checkpoint to restore and leaves [iterations] and [start_step] as
    they were. *)
Theorem last_checkpoint_option_counts
  (opts : list (string * string)) (o : options) (name : string) :
  read_options default_options opts = Ok o ->
  read_options default_options (opts ++ [("--checkpoint"%string, name)])
  = Ok {| from_checkpoint := Some name; iterations := iterations o;
          start_step := start_step o |}.
Proof.
  intros H. rewrite read_options_app, H. reflexivity.
Qed.

Lemma last_checkpoint_option_counts_witness :
  read_options default_options
    ([("--checkpoint"%string, "step-7"%string);
      ("--iterations"%string, "5"%string)]
     ++ [("--checkpoint"%string, "step-57"%string)])
  = Ok {| from_checkpoint := Some "step-57"%string;
          iterations :=
            iterations {| from_checkpoint := Some "step-7"%string;
                          iterations := 5; start_step := 0 |};
          start_step :=
            start_step {| from_checkpoint := Some "step-7"%string;
                          iterations := 5; start_step := 0 |} |}.
Proof.
  apply (last_checkpoint_option_counts
           [("--checkpoint"%string, "step-7"%string);
            ("--iterations"%string, "5"%string)]
           {| from_checkpoint := Some "step-7"%string;
              iterations := 5; start_step := 0 |} "step-57").
  reflexivity.
Defined.



(** ** The exception that ends the first step *)

(** X21. Without interrupt, the [try] block of a step ends with
    [ValueError] when there is no training file to draw from; with the
    exception of [open] or [json.load] when the drawn file gives no sample
    ([FileNotFoundError] for a missing file, [IsADirectoryError] for a
    directory, [JSONDecodeError] for text that is not JSON, or the other
    exception that the environment names); with [KeyError] when the lexicon
    has no ['=']; and with [TypeError] (the call of [prepare_sample]) in
    every other case. The iteration has been announced, and a sample has
    been drawn unless there was none. *)
Theorem try_block_exception (w : world) (i end_ : Z) (st : state) :
  pending_interrupt st = None ->
  exists st',
    try_block w i end_ st
    = (Raise
         match data_files w with
         | [] => ValueError
         | name :: _ =>
             match train_file w
                     (nth (Nat.modulo (random_choice w (draws st))
                                      (List.length (data_files w)))
                          (data_files w) name) with
             | inl fe => file_exception fe
             | inr _ =>
                 match dict_get (lexicon_dict w) "=" with
                 | Ok _ => TypeError
                 | _ => KeyError
                 end
             end
         end, st')
    /\ iterations_printed st' = (iterations_printed st ++ [(i, end_)])%list
    /\ draws st' = match data_files w with
                   | [] => draws st
                   | _ :: _ => S (draws st)
                   end.
Proof.
  intros Hp. destruct st as [p d tc ip sr ll stt avg ac rp rs sv].
  cbn in Hp. subst p.
  unfold try_block, mbind, tick, print_iteration, random_sample_name,
    json_load, lift.
  cbn [pending_interrupt draws iterations_printed].
  destruct (data_files w) as [|name names] eqn:Ed.
  - eexists. repeat split.
  - cbn [pending_interrupt draws iterations_printed].
    destruct (train_file w _) as [fe|sample].
    + eexists. repeat split.
    + cbn [pending_interrupt].
      destruct (dict_get_cases (lexicon_dict w) "=") as [[v Hv]|Hv];
        rewrite Hv; eexists; repeat split.
Qed.

Lemma try_block_exception_witness :
  exists st',
    try_block
      (small_world [] None None) 0 100000
      (state_at_loop (small_world [] None None))
    = (Raise TypeError, st')
    /\ iterations_printed st' = [(0, 100000)]
    /\ draws st' = 1%nat.
Proof.
  apply (try_block_exception (small_world [] None None) 0 100000
           (state_at_loop (small_world [] None None))).
  reflexivity.
Defined.

(** A listed file that is a directory, and one that is not JSON. *)
Example try_block_unreadable_files :
  fst (try_block
         {| argv_options := []; lexicon_dict := [("="%string, 0)];
            data_files := ["notes"%string];
            train_file := fun _ => inl Directory;
            ckpts_dir := None; random_choice := fun _ => 0%nat;
            model_loss := fun _ => Np.float_of_int 0;
            time_time := fun _ => Np.float_of_int 0;
            interrupt_at := None |} 0 100000
         (initial_state fresh_world)) = Raise IsADirectoryError
  /\ fst (try_block
         {| argv_options := []; lexicon_dict := [("="%string, 0)];
            data_files := ["README.txt"%string];
            train_file := fun _ => inl NotJSON;
            ckpts_dir := None; random_choice := fun _ => 0%nat;
            model_loss := fun _ => Np.float_of_int 0;
            time_time := fun _ => Np.float_of_int 0;
            interrupt_at := None |} 0 100000
         (initial_state fresh_world)) = Raise JSONDecodeError.
Proof. split; reflexivity. Qed.

(** ** One pass through the statements after the encoding (lines 213-261) *)



(** The same pass on a feed whose target is empty: [target_output[0]] is an
    [IndexError], after the model has been run. *)
Example after_encoding_empty_target :
  fst (after_encoding fresh_world 0 100000 ([], [], 0, [])
         (state_at_loop fresh_world)) = Raise IndexError
  /\ session_runs (snd (after_encoding fresh_world 0 100000 ([], [], 0, [])
                          (state_at_loop fresh_world)))
     = [([], [], 0, [])].
Proof. split; reflexivity. Qed.
